(** * upload_to_release.py: uploading files to a GitHub release

    A shallow embedding of [src/upload_to_release.py].  Python values are
    modelled by an inductive type, Python [str] by the list of its code
    points, and every interaction with the outside (file system, HTTP
    session, MIME database, console) by an event of a small free monad
    with exceptions; a run against an arbitrary environment yields the
    trace of events, the outcome and the process exit status. *)

From Stdlib Require Import ZArith List String Ascii Bool Lia DecimalString Sorted.
Import ListNotations.
Local Open Scope Z_scope.
Set Warnings "-register-all".

(* ================================================================= *)
(** ** Python strings *)

(** A Python [str] is a sequence of code points, [bytes] a sequence of
    integers below 256. *)
Definition pystr := list Z.
Definition pybytes := list Z.

(** An ASCII literal of the source. *)
Definition lit (s : string) : pystr :=
  map (fun a => Z.of_N (N_of_ascii a)) (list_ascii_of_string s).

Fixpoint pystr_eqb (a b : pystr) : bool :=
  match a, b with
  | [], [] => true
  | x :: a', y :: b' => (x =? y) && pystr_eqb a' b'
  | _, _ => false
  end.

(** [str(n)] and the [{n}] of an f-string, for an [int]. *)
Definition str_int (n : Z) : pystr := lit (NilZero.string_of_int (Z.to_int n)).

(** [s.split(sep)[0]]: the part of [s] before the first [sep]. *)
Fixpoint split_head (sep : Z) (s : pystr) : pystr :=
  match s with
  | [] => []
  | c :: s' => if c =? sep then [] else c :: split_head sep s'
  end.

(** [s.split(sep)] for a one-character separator. *)
Fixpoint split_on (sep : Z) (s : pystr) : list pystr :=
  match s with
  | [] => [[]]
  | c :: s' =>
      if c =? sep then [] :: split_on sep s'
      else match split_on sep s' with
           | [] => [[c]]
           | w :: ws => (c :: w) :: ws
           end
  end.

(** [sep.join(parts)]. *)
Fixpoint join (sep : pystr) (parts : list pystr) : pystr :=
  match parts with
  | [] => []
  | [p] => p
  | p :: ps => p ++ sep ++ join sep ps
  end.

(* ================================================================= *)
(** ** Python values and exceptions *)

(** A [float]: a finite one is carried by its [repr]. *)
Inductive pyfloat : Type :=
| Finite (repr : string)
| PosInfinity
| NegInfinity
| NotANumber.

(** The values the program handles: what [response.json()] returns, the
    members of the result tuple and the records of the mapping. *)
Inductive value : Type :=
| VNone
| VBool (b : bool)
| VInt (n : Z)
| VFloat (x : pyfloat)
| VStr (s : pystr)
| VList (l : list value)
| VDict (kv : list (pystr * value)).

Inductive exn_class : Type :=
| RequestException   (* requests.exceptions.RequestException and subclasses *)
| JSONDecodeError    (* requests.exceptions.JSONDecodeError *)
| KeyError
| TypeError
| AttributeError
| UnicodeEncodeError
| UnicodeDecodeError
| OSError
| OtherError.

(** An ordinary exception: its class and message. *)
Record error : Type := Exn { cls : exn_class; msg : pystr }.

(** What can end a program: an ordinary exception or [SystemExit]. *)
Inductive exn : Type :=
| Error (err : error)
| SystemExit (code : Z).

(** [isinstance(e, requests.exceptions.RequestException)].  Since
    requests 2.27 the error of [response.json()] derives from
    [RequestException]. *)
Definition is_RequestException (e : exn) : bool :=
  match e with
  | Error (Exn RequestException _) => true
  | Error (Exn JSONDecodeError _) => true
  | _ => false
  end.

(** [str(e)]. *)
Definition exn_str (e : exn) : pystr :=
  match e with
  | Error err => msg err
  | SystemExit code => str_int code
  end.

Fixpoint dict_lookup (key : pystr) (kv : list (pystr * value)) : option value :=
  match kv with
  | [] => None
  | (k, v) :: kv' => if pystr_eqb k key then Some v else dict_lookup key kv'
  end.

(** [d[key]]. *)
Definition getitem (d : value) (key : pystr) : error + value :=
  match d with
  | VDict kv =>
      match dict_lookup key kv with
      | Some v => inr v
      | None => inl (Exn KeyError key)
      end
  | _ => inl (Exn TypeError (lit "object is not subscriptable by str"))
  end.

(** [d.get(key)]. *)
Definition dict_get (d : value) (key : pystr) : error + value :=
  match d with
  | VDict kv =>
      match dict_lookup key kv with
      | Some v => inr v
      | None => inr VNone
      end
  | _ => inl (Exn AttributeError (lit "object has no attribute 'get'"))
  end.

(** [s.split('{')[0]]. *)
Definition split_brace_head (s : value) : error + pystr :=
  match s with
  | VStr u => inr (split_head 123 u)
  | _ => inl (Exn AttributeError (lit "object has no attribute 'split'"))
  end.

(* ================================================================= *)
(** ** pathlib (POSIX flavour) *)

Module Path.

(** The components of a path: empty ones and ['.'] are dropped. *)
Definition parts (p : pystr) : list pystr :=
  filter (fun c => negb (pystr_eqb c []) && negb (pystr_eqb c [46]))
         (split_on 47 p).

(** The root: ['/'], ['//'] (exactly two leading slashes) or none. *)
Definition root (p : pystr) : pystr :=
  match p with
  | 47 :: 47 :: 47 :: _ => [47]
  | 47 :: 47 :: _ => [47; 47]
  | 47 :: _ => [47]
  | _ => []
  end.

(** [Path(p).name]. *)
Definition name (p : pystr) : pystr := last (parts p) [].

(** [str(Path(p))]. *)
Definition str (p : pystr) : pystr :=
  match root p ++ join [47] (parts p) with
  | [] => [46]
  | s => s
  end.

End Path.

(* ================================================================= *)
(** ** Text encodings used by the program *)

(** [str.encode('utf-8')] in strict mode, one code point: surrogates and
    values outside the code space are refused. *)
Definition utf8_encode_char (c : Z) : option pybytes :=
  if c <? 0 then None
  else if c <? 128 then Some [c]
  else if c <? 2048 then Some [192 + c / 64; 128 + c mod 64]
  else if c <? 65536 then
    if (55296 <=? c) && (c <=? 57343) then None
    else Some [224 + c / 4096; 128 + (c / 64) mod 64; 128 + c mod 64]
  else if c <? 1114112 then
    Some [240 + c / 262144; 128 + (c / 4096) mod 64;
          128 + (c / 64) mod 64; 128 + c mod 64]
  else None.

Fixpoint utf8_encode (s : pystr) : option pybytes :=
  match s with
  | [] => Some []
  | c :: s' =>
      match utf8_encode_char c, utf8_encode s' with
      | Some bs, Some bs' => Some (bs ++ bs')
      | _, _ => None
      end
  end.

Definition is_cont (b : Z) : bool := (128 <=? b) && (b <? 192).

(** Strict UTF-8 decoding: shortest form only, no surrogates. *)
Fixpoint utf8_decode (bs : pybytes) : option pystr :=
  match bs with
  | [] => Some []
  | b0 :: r0 =>
      if (0 <=? b0) && (b0 <? 128) then option_map (cons b0) (utf8_decode r0)
      else if (194 <=? b0) && (b0 <? 224) then
        match r0 with
        | b1 :: r1 =>
            if is_cont b1
            then option_map (cons ((b0 - 192) * 64 + (b1 - 128))) (utf8_decode r1)
            else None
        | _ => None
        end
      else if (224 <=? b0) && (b0 <? 240) then
        match r0 with
        | b1 :: b2 :: r2 =>
            let c := (b0 - 224) * 4096 + (b1 - 128) * 64 + (b2 - 128) in
            if is_cont b1 && is_cont b2 && (2048 <=? c)
               && negb ((55296 <=? c) && (c <=? 57343))
            then option_map (cons c) (utf8_decode r2)
            else None
        | _ => None
        end
      else if (240 <=? b0) && (b0 <? 245) then
        match r0 with
        | b1 :: b2 :: b3 :: r3 =>
            let c := (b0 - 240) * 262144 + (b1 - 128) * 4096
                     + (b2 - 128) * 64 + (b3 - 128) in
            if is_cont b1 && is_cont b2 && is_cont b3
               && (65536 <=? c) && (c <? 1114112)
            then option_map (cons c) (utf8_decode r3)
            else None
        | _ => None
        end
      else None
  end.

(** Hexadecimal digits, upper case (urllib) and lower case (json). *)
Definition hex_upper (d : Z) : Z := if d <? 10 then 48 + d else 55 + d.
Definition hex_lower (d : Z) : Z := if d <? 10 then 48 + d else 87 + d.

(** urllib.parse: [_ALWAYS_SAFE], the unreserved characters
    [A-Z a-z 0-9 _ . - ~]. *)
Definition always_safe (b : Z) : bool :=
  ((65 <=? b) && (b <=? 90)) || ((97 <=? b) && (b <=? 122))
  || ((48 <=? b) && (b <=? 57))
  || (b =? 95) || (b =? 46) || (b =? 45) || (b =? 126).

(** The quoter of [quote_from_bytes] with [safe=''] : [chr(b)] for a safe
    byte, ['%{:02X}'.format(b)] otherwise. *)
Definition quoter (b : Z) : pystr :=
  if always_safe b then [b] else [37; hex_upper (b / 16); hex_upper (b mod 16)].

Definition quote_from_bytes (bs : pybytes) : pystr := flat_map quoter bs.

(** [quote(s, safe='')]: the UTF-8 bytes of [s], quoted. *)
Definition quote (s : pystr) : error + pystr :=
  match utf8_encode s with
  | Some bs => inr (quote_from_bytes bs)
  | None => inl (Exn UnicodeEncodeError (lit "surrogates not allowed"))
  end.

(** The value of a hexadecimal digit, either case. *)
Definition hex_value (c : Z) : option Z :=
  if (48 <=? c) && (c <=? 57) then Some (c - 48)
  else if (65 <=? c) && (c <=? 70) then Some (c - 55)
  else if (97 <=? c) && (c <=? 102) then Some (c - 87)
  else None.

(** Percent-decoding to bytes: [%XY] with two hexadecimal digits is one
    byte, every other character stands for itself. *)
Fixpoint unquote_to_bytes (s : pystr) : pybytes :=
  match s with
  | [] => []
  | c :: t =>
      if c =? 37 then
        match t with
        | h :: l :: rest =>
            match hex_value h, hex_value l with
            | Some x, Some y => (x * 16 + y) :: unquote_to_bytes rest
            | _, _ => c :: unquote_to_bytes t
            end
        | _ => c :: unquote_to_bytes t
        end
      else c :: unquote_to_bytes t
  end.

(** Percent-decoding of a query parameter: the bytes, read as UTF-8. *)
Definition unquote (s : pystr) : option pystr := utf8_decode (unquote_to_bytes s).

(** *** JSON text *)

(** [json.dumps] escapes ([ensure_ascii=True]): the two-character escapes,
    printable ASCII as it is, [\uXXXX] for the rest, with a surrogate pair
    above the basic plane. *)
Definition u_escape (c : Z) : pystr :=
  [92; 117; hex_lower ((c / 4096) mod 16); hex_lower ((c / 256) mod 16);
   hex_lower ((c / 16) mod 16); hex_lower (c mod 16)].

Definition json_escape_char (c : Z) : pystr :=
  if c =? 92 then [92; 92]
  else if c =? 34 then [92; 34]
  else if c =? 8 then [92; 98]
  else if c =? 12 then [92; 102]
  else if c =? 10 then [92; 110]
  else if c =? 13 then [92; 114]
  else if c =? 9 then [92; 116]
  else if (32 <=? c) && (c <=? 126) then [c]
  else if c <? 65536 then u_escape c
  else u_escape (55296 + ((c - 65536) / 1024) mod 1024)
       ++ u_escape (56320 + (c - 65536) mod 1024).

Definition json_string (s : pystr) : pystr :=
  [34] ++ flat_map json_escape_char s ++ [34].

(** [json.dumps(v, ensure_ascii=True)] with the default separators. *)
Fixpoint json_dumps (v : value) : pystr :=
  match v with
  | VNone => lit "null"
  | VBool true => lit "true"
  | VBool false => lit "false"
  | VInt n => str_int n
  | VFloat (Finite r) => lit r
  | VFloat PosInfinity => lit "Infinity"
  | VFloat NegInfinity => lit "-Infinity"
  | VFloat NotANumber => lit "NaN"
  | VStr s => json_string s
  | VList l =>
      [91] ++
      (fix items (l : list value) : pystr :=
         match l with
         | [] => []
         | [x] => json_dumps x
         | x :: l' => json_dumps x ++ lit ", " ++ items l'
         end) l
      ++ [93]
  | VDict kv =>
      [123] ++
      (fix members (kv : list (pystr * value)) : pystr :=
         match kv with
         | [] => []
         | [(k, x)] => json_string k ++ lit ": " ++ json_dumps x
         | (k, x) :: kv' =>
             json_string k ++ lit ": " ++ json_dumps x ++ lit ", " ++ members kv'
         end) kv
      ++ [125]
  end.

(** *** Base64 (RFC 4648, standard alphabet, padded) *)

Definition b64_char (i : Z) : Z :=
  if i <? 26 then 65 + i
  else if i <? 52 then 71 + i
  else if i <? 62 then i - 4
  else if i =? 62 then 43
  else 47.


(** [base64.b64encode]. *)
Fixpoint b64encode (bs : pybytes) : pybytes :=
  match bs with
  | [] => []
  | [a] => [b64_char (a / 4); b64_char ((a mod 4) * 16); 61; 61]
  | [a; b] =>
      [b64_char (a / 4); b64_char ((a mod 4) * 16 + b / 16);
       b64_char ((b mod 16) * 4); 61]
  | a :: b :: c :: r =>
      b64_char (a / 4) :: b64_char ((a mod 4) * 16 + b / 16)
      :: b64_char ((b mod 16) * 4 + c / 64) :: b64_char (c mod 64)
      :: b64encode r
  end.


(** [bytes.decode('ascii')]. *)
Definition decode_ascii (bs : pybytes) : option pystr :=
  if forallb (fun b => (0 <=? b) && (b <? 128)) bs then Some bs else None.

(* ================================================================= *)
(** ** The HTTP session *)

Inductive http_method : Type :=
| HEAD | GET | PUT | DELETE | OPTIONS | TRACE | POST | PATCH.

Definition http_method_eqb (a b : http_method) : bool :=
  match a, b with
  | HEAD, HEAD | GET, GET | PUT, PUT | DELETE, DELETE
  | OPTIONS, OPTIONS | TRACE, TRACE | POST, POST | PATCH, PATCH => true
  | _, _ => false
  end.

(** [urllib3.util.retry.Retry], the fields the program sets. *)
Record Retry : Type := mkRetry {
  total : Z;
  read : Z;
  connect : Z;
  backoff_factor : Z;
  status_forcelist : list Z;
  allowed_methods : list http_method
}.

(** [requests.Session]: the adapters mounted, by URL prefix. *)
Record Session : Type := mkSession {
  adapters : list (pystr * Retry)
}.

(** [session.mount(prefix, adapter)]. *)
Definition mount (session : Session) (prefix : pystr) (max_retries : Retry) : Session :=
  mkSession ((prefix, max_retries) :: adapters session).

(** [create_retry_session(retries=5, backoff_factor=1, status_forcelist=None)]. *)
Definition create_retry_session (retries backoff_factor : Z)
    (status_forcelist : option (list Z)) : Session :=
  let session := mkSession [] in
  let status_forcelist :=
    match status_forcelist with
    | None => [429; 500; 502; 503; 504]
    | Some l => l
    end in
  let retry :=
    mkRetry retries retries retries backoff_factor status_forcelist
            [HEAD; GET; PUT; DELETE; OPTIONS; TRACE; POST] in
  let session := mount session (lit "http://") retry in
  let session := mount session (lit "https://") retry in
  session.

(** [requests.Response]: [json_body] is what [response.json()] returns,
    [None] when the body is not JSON. *)
Record Response : Type := mkResponse {
  status_code : Z;
  text : pystr;
  json_body : option value
}.

(* ================================================================= *)
(** ** Programs: events, exceptions and runs *)

Definition file := Z.
Definition headers := list (pystr * pystr).

(** What the program asks of its environment. *)
Inductive event : Type :=
| OsPathExists (path : pystr)                       (* os.path.exists *)
| SessionRequest (session : Session) (m : http_method) (url : pystr)
                 (hdrs : headers) (data : option file) (* session.get/post *)
| GuessType (filename : pystr)                      (* mimetypes.guess_type()[0] *)
| OpenRb (path : pystr)                             (* open(path, 'rb') *)
| CloseFile (f : file)                              (* leaving the with block *)
| PrintLine (s : pystr).                            (* print *)

(** What the environment answers; a call that can raise answers with the
    exception (never [SystemExit]) or the result.  A line reaches the
    console only when it can be written, see [print]. *)
Definition answer (e : event) : Type :=
  match e with
  | OsPathExists _ => bool
  | SessionRequest _ _ _ _ _ => (error + Response)%type
  | GuessType _ => option pystr
  | OpenRb _ => (error + file)%type
  | CloseFile _ => unit
  | PrintLine _ => unit
  end.

Inductive prog (A : Type) : Type :=
| Ret (a : A)
| Raise (e : exn)
| Vis (e : event) (k : answer e -> prog A).

Arguments Ret {A} a.
Arguments Raise {A} e.
Arguments Vis {A} e k.

Fixpoint bind {A B : Type} (p : prog A) (f : A -> prog B) : prog B :=
  match p with
  | Ret a => f a
  | Raise e => Raise e
  | Vis e k => Vis e (fun x => bind (k x) f)
  end.

Declare Scope prog_scope.
Delimit Scope prog_scope with prog.
Notation "x <- c1 ;; c2" := (bind c1 (fun x => c2))
  (at level 61, c1 at next level, right associativity) : prog_scope.
Notation "' pat <- c1 ;; c2" := (bind c1 (fun x => match x with pat => c2 end))
  (at level 61, pat pattern, c1 at next level, right associativity) : prog_scope.
Notation "c1 ;; c2" := (bind c1 (fun _ => c2))
  (at level 61, right associativity) : prog_scope.
Local Open Scope prog_scope.

Definition trigger (e : event) : prog (answer e) := Vis e Ret.

(** A call that raises or returns. *)
Definition lift_sum {A : Type} (r : error + A) : prog A :=
  match r with
  | inl err => Raise (Error err)
  | inr a => Ret a
  end.

(** [try: p except ...: h]: [handler e] is the clause that catches [e],
    if there is one. *)
Fixpoint try_except {A : Type} (p : prog A) (handler : exn -> option (prog A)) : prog A :=
  match p with
  | Ret a => Ret a
  | Raise e =>
      match handler e with
      | Some h => h
      | None => Raise e
      end
  | Vis e k => Vis e (fun x => try_except (k x) handler)
  end.

(** [try: p finally: q]. *)
Fixpoint finally {A : Type} (p : prog A) (q : prog unit) : prog A :=
  match p with
  | Ret a => q ;; Ret a
  | Raise e => q ;; Raise e
  | Vis e k => Vis e (fun x => finally (k x) q)
  end.

Definition os_path_exists (path : pystr) : prog bool := trigger (OsPathExists path).

(** The pieces of an f-string: the text of the source, and the values put
    into it. *)
Inductive piece : Type :=
| Lit (s : pystr)
| Val (s : pystr).

Definition fstring := list piece.

Definition piece_str (p : piece) : pystr :=
  match p with
  | Lit s => s
  | Val s => s
  end.

(** The string that the f-string evaluates to. *)
Fixpoint format (f : fstring) : pystr :=
  match f with
  | [] => []
  | [p] => piece_str p
  | p :: f' => piece_str p ++ format f'
  end.

(** The standard output writes UTF-8.  With the error handler [strict] it
    writes no surrogate, with [surrogateescape] only the escaped bytes
    U+DC80..U+DCFF.  The text of the source is checked with the strict
    encoder: the one literal with surrogates, at line 127, holds U+D83D,
    which neither handler writes.  The values put into an f-string come
    from the environment (the arguments, decoded with [surrogateescape],
    the bodies of responses, the messages of exceptions) and are taken to
    be text that the console writes. *)
Definition writable (f : fstring) : bool :=
  forallb (fun p =>
             match p with
             | Lit s => match utf8_encode s with
                        | Some _ => true
                        | None => false
                        end
             | Val _ => true
             end) f.

(** [print(f'...')]: the line, or [UnicodeEncodeError] when the console
    cannot write it. *)
Definition print (f : fstring) : prog unit :=
  if writable f then trigger (PrintLine (format f))
  else Raise (Error (Exn UnicodeEncodeError (lit "surrogates not allowed"))).
Definition guess_type (filename : pystr) : prog (option pystr) := trigger (GuessType filename).

Definition session_get (session : Session) (url : pystr) (hdrs : headers) : prog Response :=
  r <- trigger (SessionRequest session GET url hdrs None) ;; lift_sum r.

Definition session_post (session : Session) (url : pystr) (hdrs : headers) (data : file)
  : prog Response :=
  r <- trigger (SessionRequest session POST url hdrs (Some data)) ;; lift_sum r.

(** [with open(path, 'rb') as f: body f]. *)
Definition with_open_rb {A : Type} (path : pystr) (body : file -> prog A) : prog A :=
  r <- trigger (OpenRb path) ;;
  f <- lift_sum r ;;
  finally (body f) (trigger (CloseFile f)).

(** [response.json()]. *)
Definition response_json (response : Response) : prog value :=
  match json_body response with
  | Some v => Ret v
  | None => Raise (Error (Exn JSONDecodeError (lit "Expecting value")))
  end.

(** [sys.exit(code)]. *)
Definition sys_exit {A : Type} (code : Z) : prog A := Raise (SystemExit code).

(** One event of a run with its answer. *)
Record obs : Type := Obs { obs_event : event; obs_answer : answer obs_event }.

Inductive outcome (A : Type) : Type :=
| Returned (a : A)
| Uncaught (e : exn).

Arguments Returned {A} a.
Arguments Uncaught {A} e.

Section Run.

(** The environment: a state and the answer it gives to each event. *)
Context {W : Type}.
Variable handle : forall e : event, W -> answer e * W.

Fixpoint run {A : Type} (p : prog A) (w : W) : list obs * outcome A * W :=
  match p with
  | Ret a => ([], Returned a, w)
  | Raise e => ([], Uncaught e, w)
  | Vis e k =>
      let (x, w1) := handle e w in
      let '(t, r, w2) := run (k x) w1 in
      (Obs e x :: t, r, w2)
  end.

End Run.

(** [always p Q]: whatever the environment answers, the trace and the
    outcome of [p] satisfy [Q]. *)
Fixpoint always {A : Type} (p : prog A) (Q : list obs -> outcome A -> Prop) : Prop :=
  match p with
  | Ret a => Q [] (Returned a)
  | Raise e => Q [] (Uncaught e)
  | Vis e k => forall x : answer e, always (k x) (fun t r => Q (Obs e x :: t) r)
  end.

(** The exit status of the interpreter: [sys.exit(code)] gives [code], any
    other uncaught exception a traceback and status 1. *)
Definition exit_status {A : Type} (r : outcome A) : Z :=
  match r with
  | Returned _ => 0
  | Uncaught (SystemExit code) => code
  | Uncaught (Error _) => 1
  end.

(* ================================================================= *)
(** ** upload_to_release *)

(** The result tuple [(success, original_filename, asset_id)]. *)
Definition result : Type := (bool * value * value)%type.

(** The pictographs of the messages, as the source spells them. *)
Definition dingbat_cross : pystr := [10060].    (* '\u274c' *)
Definition dingbat_check : pystr := [9989].     (* '\u2705' *)
Definition bar_chart : pystr := [55357; 56522]. (* '\ud83d\udcca' *)

(** Line 44: the URL of the releases-by-tag endpoint. *)
Definition release_url (owner repo tag_name : pystr) : pystr :=
  lit "https://api.github.com/repos/" ++ owner ++ lit "/" ++ repo
  ++ lit "/releases/tags/" ++ tag_name.

(** The [except requests.exceptions.RequestException as e] clause of
    lines 91-93, with the binding of [file_path] in force. *)
Definition except_RequestException {A : Type} (file_path : pystr) (ret : result -> A)
    (e : exn) : option (prog A) :=
  if is_RequestException e then
    Some (print [ Lit (dingbat_cross ++ lit " Exception during upload of ");
                  Val file_path; Lit (lit ": "); Val (exn_str e) ] ;;
          Ret (ret (false, VNone, VNone)))
  else None.

(** Lines 41-93.  The [try] block is cut at line 60, where [file_path] is
    rebound to a [Path]: an exception caught before it prints the argument
    as it was given, one caught after it prints [str(Path(file_path))].
    The first part returns the result of an early [return] ([inl]) or the
    upload URL ([inr]). *)
Definition upload_to_release (token owner repo tag_name file_path : pystr) : prog result :=
  (* Create session with retries *)
  let session := create_retry_session 5 1 None in
  (* Get release by tag *)
  let url := release_url owner repo tag_name in
  let hdrs := [ (lit "Authorization", lit "token " ++ token);
                (lit "Accept", lit "application/vnd.github.v3+json") ] in
  r <- try_except
         (response <- session_get session url hdrs ;;
          if negb (status_code response =? 200) then
            print [ Lit (dingbat_cross ++ lit " Failed to get release: ");
                    Val (str_int (status_code response)); Lit (lit " - ");
                    Val (text response) ] ;;
            Ret (inl (false, VNone, VNone))
          else
            release <- response_json response ;;
            u <- lift_sum (getitem release (lit "upload_url")) ;;
            upload_url <- lift_sum (split_brace_head u) ;;
            Ret (inr upload_url))
         (except_RequestException file_path inl) ;;
  match r with
  | inl early => Ret early
  | inr upload_url =>
      (* Get filename and content type *)
      let filename := Path.name file_path in
      let file_path := Path.str file_path in
      try_except
        ((* URL encode the filename for GitHub API *)
         encoded_filename <- lift_sum (quote filename) ;;
         guessed <- guess_type filename ;;
         let content_type :=
           match guessed with
           | Some (c :: t) => c :: t
           | _ => lit "application/octet-stream"
           end in
         (* Upload file *)
         let upload_headers := [ (lit "Authorization", lit "token " ++ token);
                                 (lit "Content-Type", content_type) ] in
         let upload_url_with_name := upload_url ++ lit "?name=" ++ encoded_filename in
         response <- with_open_rb file_path
                       (fun f => session_post session upload_url_with_name upload_headers f) ;;
         if (status_code response =? 200) || (status_code response =? 201) then
           result <- response_json response ;;
           asset_id <- lift_sum (dict_get result (lit "id")) ;;
           print [ Lit (dingbat_check ++ lit " Successfully uploaded: ");
                   Val filename ] ;;
           Ret (true, VStr filename, asset_id)
         else
           print [ Lit (dingbat_cross ++ lit " Failed to upload "); Val filename;
                   Lit (lit ": "); Val (str_int (status_code response));
                   Lit (lit " - "); Val (text response) ] ;;
           Ret (false, VNone, VNone))
        (except_RequestException file_path (fun x => x))
  end.

(* ================================================================= *)
(** ** The script *)

Record loop_state : Type := mkState {
  success_count : Z;
  fail_count : Z;
  filename_mapping : list value
}.

Definition mapping_record (idx : Z) (original_name asset_id : value) : value :=
  VDict [ (lit "index", VInt idx);
          (lit "original_name", original_name);
          (lit "asset_id", asset_id) ].

(** Lines 110-125: [for idx, file_path in enumerate(file_paths)], from
    position [idx] on. *)
Fixpoint main_loop (token owner repo tag_name : pystr) (idx : Z)
    (file_paths : list pystr) (st : loop_state) : prog loop_state :=
  match file_paths with
  | [] => Ret st
  | file_path :: rest =>
      found <- os_path_exists file_path ;;
      if negb found then
        print [ Lit (dingbat_cross ++ lit " File not found: "); Val file_path ] ;;
        main_loop token owner repo tag_name (idx + 1) rest
          (mkState (success_count st) (fail_count st + 1) (filename_mapping st))
      else
        '(success, original_name, asset_id) <-
          upload_to_release token owner repo tag_name file_path ;;
        if (success : bool) then
          main_loop token owner repo tag_name (idx + 1) rest
            (mkState (success_count st + 1) (fail_count st)
                     (filename_mapping st ++ [mapping_record idx original_name asset_id]))
        else
          main_loop token owner repo tag_name (idx + 1) rest
            (mkState (success_count st) (fail_count st + 1) (filename_mapping st))
  end.

Definition usage : pystr :=
  lit "Usage: python upload_to_release.py <token> <owner> <repo> <tag_name> <file_path> [file_path...]".

(** Line 127: the f-string of the summary and the string it evaluates to. *)
Definition results_fstring (st : loop_state) : fstring :=
  [ Lit ([10] ++ bar_chart ++ lit " Results: "); Val (str_int (success_count st));
    Lit (lit " succeeded, "); Val (str_int (fail_count st)); Lit (lit " failed") ].

Definition results_line (st : loop_state) : pystr :=
  [10] ++ bar_chart ++ lit " Results: " ++ str_int (success_count st)
  ++ lit " succeeded, " ++ str_int (fail_count st) ++ lit " failed".

Definition mapping_start : pystr := [10] ++ lit "===FILENAME_MAPPING_START===".
Definition mapping_end : pystr := lit "===FILENAME_MAPPING_END===".

(** Lines 133-134: the Base64 text of the JSON text of the mapping. *)
Definition encode_mapping (filename_mapping : list value) : prog pystr :=
  let json_str := json_dumps (VList filename_mapping) in
  match utf8_encode json_str with
  | None => Raise (Error (Exn UnicodeEncodeError (lit "surrogates not allowed")))
  | Some bs =>
      match decode_ascii (b64encode bs) with
      | None => Raise (Error (Exn UnicodeDecodeError (lit "ordinal not in range(128)")))
      | Some encoded => Ret encoded
      end
  end.

(** Lines 127-138: the summary, the mapping block and the exit status. *)
Definition report (st : loop_state) : prog unit :=
  print (results_fstring st) ;;
  (* Output JSON mapping for server to parse *)
  match filename_mapping st with
  | _ :: _ =>
      print [Lit mapping_start] ;;
      encoded <- encode_mapping (filename_mapping st) ;;
      print [Val encoded] ;;
      print [Lit mapping_end]
  | [] => Ret tt
  end ;;
  sys_exit (if fail_count st =? 0 then 0 else 1).

(** Lines 95-138, [sys.argv] being [argv]. *)
Definition main (argv : list pystr) : prog unit :=
  if Z.of_nat (List.length argv) <? 5 then
    print [Lit usage] ;;
    sys_exit 1
  else
    let token := nth 1 argv [] in
    let owner := nth 2 argv [] in
    let repo := nth 3 argv [] in
    let tag_name := nth 4 argv [] in
    let file_paths := skipn 5 argv in
    st <- main_loop token owner repo tag_name 0 file_paths (mkState 0 0 []) ;;
    report st.

(* ================================================================= *)
(** ** Observing a run *)

Definition trace_of {A W : Type} (r : list obs * outcome A * W) : list obs := fst (fst r).
Definition outcome_of {A W : Type} (r : list obs * outcome A * W) : outcome A := snd (fst r).

(** The observation left by a [print]. *)
Definition printed (s : pystr) : obs := Obs (PrintLine s) tt.

(** A GET to the releases-by-tag endpoint. *)
Definition is_release_lookup (url : pystr) (o : obs) : bool :=
  match obs_event o with
  | SessionRequest _ GET u _ _ => pystr_eqb u url
  | _ => false
  end.

(** Any call of the HTTP session. *)
Definition is_network_call (o : obs) : bool :=
  match obs_event o with
  | SessionRequest _ _ _ _ _ => true
  | _ => false
  end.

(** An input path that [os.path.exists] found. *)
Definition is_existing (o : obs) : bool :=
  match o with
  | Obs e x =>
      match e return answer e -> bool with
      | OsPathExists _ => fun found => found
      | _ => fun _ => false
      end x
  end.

(** An input path examined by the loop. *)
Definition is_examined (o : obs) : bool :=
  match obs_event o with
  | OsPathExists _ => true
  | _ => false
  end.

Definition count (f : obs -> bool) (t : list obs) : Z :=
  Z.of_nat (List.length (filter f t)).

(** The answer to an HTTP request, if the observation is one. *)
Definition request_answer (m : http_method) (o : obs) : option (error + Response) :=
  match o with
  | Obs e x =>
      match e return answer e -> option (error + Response) with
      | SessionRequest _ m' _ _ _ =>
          fun r => if http_method_eqb m' m then Some r else None
      | _ => fun _ => None
      end x
  end.

(** The asset identifier of an upload that the server accepted: a POST
    answered 200 or 201 with a JSON object. *)
Definition uploaded_id (o : obs) : option value :=
  match request_answer POST o with
  | Some (inr response) =>
      if (status_code response =? 200) || (status_code response =? 201) then
        match json_body response with
        | Some result =>
            match dict_get result (lit "id") with
            | inr asset_id => Some asset_id
            | inl _ => None
            end
        | None => None
        end
      else None
  | _ => None
  end.

Fixpoint uploaded_ids (t : list obs) : list value :=
  match t with
  | [] => []
  | o :: t' =>
      match uploaded_id o with
      | Some asset_id => asset_id :: uploaded_ids t'
      | None => uploaded_ids t'
      end
  end.

(** A byte, or a code point of Latin-1. *)
Definition is_byte (b : Z) : Prop := 0 <= b < 256.

(** A Unicode scalar value: a code point that is not a surrogate. *)
Definition is_scalar (c : Z) : Prop :=
  0 <= c < 1114112 /\ ~ (55296 <= c <= 57343).

(** A record of the mapping: its index, file name and asset identifier. *)
Definition record_of (r : Z * pystr * value) : value :=
  let '(idx, original_name, asset_id) := r in
  mapping_record idx (VStr original_name) asset_id.

(* ================================================================= *)
(** ** The retrying HTTP client *)

Module RetryPolicy.

(** What one attempt on the wire gives. *)
Inductive wire_answer : Type :=
| WireResponse (r : Response)
| ConnectFailure (msg : pystr)
| ReadFailure (msg : pystr).

(** [session.get_adapter(url)]: the first adapter mounted on a prefix of
    the URL. *)
Fixpoint starts_with (prefix s : pystr) : bool :=
  match prefix, s with
  | [], _ => true
  | a :: prefix', b :: s' => (a =? b) && starts_with prefix' s'
  | _ :: _, [] => false
  end.

Fixpoint get_adapter (adapters : list (pystr * Retry)) (url : pystr) : option Retry :=
  match adapters with
  | [] => None
  | (prefix, retry) :: rest =>
      if starts_with prefix url then Some retry else get_adapter rest url
  end.

(** Modelled from the spec: whether a response is retried, section 4.1
    (the Retry class of urllib3 is not part of the repository): the
    method is eligible and the status is in the retryable set. *)
Definition is_retry (retry : Retry) (m : http_method) (status : Z) : bool :=
  existsb (http_method_eqb m) (allowed_methods retry)
  && existsb (Z.eqb status) (status_forcelist retry).

(** Modelled from the spec: one retry used up, section 4.1 (urllib3 is
    not part of the repository): the total always, the connect or read
    budget after a failure of that kind. *)
Definition increment (retry : Retry) (a : wire_answer) : Retry :=
  match a with
  | WireResponse _ =>
      mkRetry (total retry - 1) (read retry) (connect retry)
              (backoff_factor retry) (status_forcelist retry) (allowed_methods retry)
  | ConnectFailure _ =>
      mkRetry (total retry - 1) (read retry) (connect retry - 1)
              (backoff_factor retry) (status_forcelist retry) (allowed_methods retry)
  | ReadFailure _ =>
      mkRetry (total retry - 1) (read retry - 1) (connect retry)
              (backoff_factor retry) (status_forcelist retry) (allowed_methods retry)
  end.

Definition is_exhausted (retry : Retry) : bool :=
  Z.min (total retry) (Z.min (read retry) (connect retry)) <? 0.

(** Modelled from the spec: the retrying HTTP client of section 4.1 (the
    adapter of requests and urllib3, not part of the repository).  The
    attempts are answered in turn by [wire]; a retryable status or a
    connection/read failure is retried after a delay of
    [backoff_factor * 2^attempt] until the budget is used up, and then
    surfaces as an exception; any other response is returned as it is.
    The result comes with the delays slept. *)
Fixpoint urlopen (retry : Retry) (m : http_method) (attempt : Z)
    (wire : list wire_answer) : list Z * (error + Response) :=
  match wire with
  | [] => ([], inl (Exn RequestException (lit "connection closed")))
  | a :: wire' =>
      let again (failure : error) :=
        let retry' := increment retry a in
        if is_exhausted retry' then ([], inl failure)
        else
          let (delays, r) := urlopen retry' m (attempt + 1) wire' in
          (backoff_factor retry * 2 ^ attempt :: delays, r) in
      match a with
      | WireResponse r =>
          if is_retry retry m (status_code r)
          then again (Exn RequestException (lit "too many error responses"))
          else ([], inr r)
      | ConnectFailure msg => again (Exn RequestException msg)
      | ReadFailure msg => again (Exn RequestException msg)
      end
  end.

(** [session.request(m, url)] against the wire. *)
Definition send (session : Session) (m : http_method) (url : pystr)
    (wire : list wire_answer) : list Z * (error + Response) :=
  match get_adapter (adapters session) url with
  | Some retry => urlopen retry m 0 wire
  | None => ([], inl (Exn RequestException (lit "No connection adapters were found")))
  end.

(** The statuses the session of the program retries. *)
Definition retryable (status : Z) : Prop := In status [429; 500; 502; 503; 504].

End RetryPolicy.

(* ================================================================= *)
(** ** A scripted environment *)

(** A stateless environment given by tables: which paths exist, what the
    server answers to a request, the MIME type of a file name, and what
    opening a path gives. *)
Module Scripted.

Record world : Type := mkWorld {
  w_exists : pystr -> bool;
  w_request : http_method -> pystr -> error + Response;
  w_mime : pystr -> option pystr;
  w_open : pystr -> error + file
}.

Definition handle (env : world) (e : event) (w : unit) : answer e * unit :=
  match e as e0 return answer e0 * unit with
  | OsPathExists p => (w_exists env p, tt)
  | SessionRequest _ m url _ _ => (w_request env m url, tt)
  | GuessType fn => (w_mime env fn, tt)
  | OpenRb p => (w_open env p, tt)
  | CloseFile _ => (tt, tt)
  | PrintLine _ => (tt, tt)
  end.

(** The answer of the releases-by-tag endpoint for an existing tag. *)
Definition release_found : Response :=
  mkResponse 200 (lit "{...}")
    (Some (VDict [ (lit "upload_url",
                    VStr (lit "https://uploads.github.com/repos/o/r/releases/1/assets{?name,label}")) ])).

(** The answer to an accepted upload. *)
Definition asset_created (id : Z) : Response :=
  mkResponse 201 (lit "{...}") (Some (VDict [ (lit "id", VInt id) ])).

(** An accepted upload whose body carries no identifier. *)
Definition asset_created_no_id : Response :=
  mkResponse 201 (lit "{}") (Some (VDict [])).

(** A status-200 answer of the release lookup without the upload URL. *)
Definition release_without_url : Response :=
  mkResponse 200 (lit "{}") (Some (VDict [])).

(** Every path exists except [missing.txt]; the tag exists; every upload
    is accepted with identifier 42. *)
Definition all_fine : world :=
  mkWorld (fun p => negb (pystr_eqb p (lit "missing.txt")))
          (fun m _ => match m with
                      | GET => inr release_found
                      | _ => inr (asset_created 42)
                      end)
          (fun _ => None)
          (fun _ => inr 3).

(** As [all_fine], the uploads answered without an identifier. *)
Definition no_id : world :=
  mkWorld (fun _ => true)
          (fun m _ => match m with
                      | GET => inr release_found
                      | _ => inr asset_created_no_id
                      end)
          (fun _ => None)
          (fun _ => inr 3).

(** Every path exists; the release lookup answers 200 with [{}]. *)
Definition lookup_without_url : world :=
  mkWorld (fun _ => true)
          (fun _ _ => inr release_without_url)
          (fun _ => None)
          (fun _ => inr 3).

Definition argv (file_paths : list string) : list pystr :=
  map lit (["upload_to_release.py"; "tok"; "o"; "r"; "v1"]%string ++ file_paths).

(** A file name in Hebrew letters, with the extension [.pdf]. *)
Definition hebrew_pdf : pystr := [1511; 1493; 1489; 1509; 46; 112; 100; 102].

(** A file name with a byte that is no UTF-8, as [sys.argv] delivers it:
    the escaped byte [0xff], then [.txt]. *)
Definition escaped_name : pystr := [56575; 46; 116; 120; 116].

(** The record of the mapping for [a.txt] uploaded without identifier. *)
Definition record_a_txt : value :=
  VDict [ (lit "index", VInt 0);
          (lit "original_name", VStr (lit "a.txt"));
          (lit "asset_id", VNone) ].

(** A retryable answer of the server. *)
Definition unavailable : Response := mkResponse 503 (lit "Service Unavailable") None.

(** The upload request of [a.txt] and its answer in [no_id]. *)
Definition upload_a_txt : obs :=
  Obs (SessionRequest (create_retry_session 5 1 None) POST
         (lit "https://uploads.github.com/repos/o/r/releases/1/assets?name=a.txt")
         [ (lit "Authorization", lit "token tok");
           (lit "Content-Type", lit "application/octet-stream") ]
         (Some 3))
      (inr asset_created_no_id).

End Scripted.

(* ================================================================= *)
(** ** Specifications *)

(** The state of the loop after a failed and after a succeeded file. *)
Definition after_failure (st : loop_state) : loop_state :=
  mkState (success_count st) (fail_count st + 1) (filename_mapping st).

Definition after_success (st : loop_state) (idx : Z) (original_name asset_id : value)
  : loop_state :=
  mkState (success_count st + 1) (fail_count st)
          (filename_mapping st ++ [mapping_record idx original_name asset_id]).

(** The loop as [main] runs it (lines 100-125). *)
Definition orchestrator (argv : list pystr) : prog loop_state :=
  main_loop (nth 1 argv []) (nth 2 argv []) (nth 3 argv []) (nth 4 argv [])
            0 (skipn 5 argv) (mkState 0 0 []).

(** The result tuple of [upload_to_release] and the identifiers the server
    handed out during the call. *)
Definition upload_shape (file_path : pystr) (t : list obs) (r : outcome result) : Prop :=
  match r with
  | Returned (true, original_name, asset_id) =>
      original_name = VStr (Path.name file_path) /\ uploaded_ids t = [asset_id]
  | Returned (false, original_name, asset_id) =>
      original_name = VNone /\ asset_id = VNone /\ uploaded_ids t = []
  | Uncaught e =>
      exists err, e = Error err /\ is_RequestException e = false
  end.

(** One lookup of the release, and no input path examined. *)
Definition one_lookup (url : pystr) (t : list obs) : Prop :=
  count (is_release_lookup url) t = 1
  /\ count is_existing t = 0 /\ count is_examined t = 0.

(** An upload answered 200 or 201 with a JSON object that has no ['id']. *)
Definition accepted_without_id (o : obs) : Prop :=
  exists session url hdrs data response kv,
    o = Obs (SessionRequest session POST url hdrs data) (inr response)
    /\ (status_code response = 200 \/ status_code response = 201)
    /\ json_body response = Some (VDict kv)
    /\ dict_lookup (lit "id") kv = None.

Definition null_id_reported (file_path : pystr) (t : list obs) (r : outcome result) : Prop :=
  forall o, In o t -> accepted_without_id o ->
            r = Returned (true, VStr (Path.name file_path), VNone).

Definition record_index (r : Z * pystr * value) : Z := fst (fst r).
Definition record_name (r : Z * pystr * value) : pystr := snd (fst r).
Definition record_asset (r : Z * pystr * value) : value := snd r.

(** The records of uploads of [file_paths], the first of which has position
    [idx]: positions increase, and each record carries the name of the file
    at its position. *)
Definition records_from (idx : Z) (file_paths : list pystr)
    (records : list (Z * pystr * value)) : Prop :=
  StronglySorted Z.lt (map record_index records)
  /\ Forall (fun r =>
               idx <= record_index r
               /\ exists file_path,
                    nth_error file_paths (Z.to_nat (record_index r - idx)) = Some file_path
                    /\ record_name r = Path.name file_path)
            records.

(** What the loop adds to the mapping. *)
Definition mapping_grows (idx : Z) (file_paths : list pystr) (st : loop_state)
    (t : list obs) (r : outcome loop_state) : Prop :=
  match r with
  | Returned st' =>
      exists records,
        filename_mapping st' = filename_mapping st ++ map record_of records
        /\ Z.of_nat (List.length records) = success_count st' - success_count st
        /\ map record_asset records = uploaded_ids t
        /\ records_from idx file_paths records
  | Uncaught _ => True
  end.

(** How [report] ends: the summary line of line 127 cannot be written, so
    nothing is printed and [print] raises. *)
Definition report_shape (st : loop_state) (t : list obs) (r : outcome unit) : Prop :=
  t = []
  /\ r = Uncaught (Error (Exn UnicodeEncodeError (lit "surrogates not allowed"))).

(* ================================================================= *)
(** ** Further observations of a run *)

(** A line of the loop starts with one of the two dingbats. *)
Definition is_progress_line (s : pystr) : bool :=
  match s with
  | c :: _ => (c =? 10060) || (c =? 9989)
  | [] => false
  end.

Definition prints_progress (o : obs) : Prop :=
  match obs_event o with
  | PrintLine s => is_progress_line s = true
  | _ => True
  end.

(** An upload request. *)
Definition is_upload (o : obs) : bool :=
  match obs_event o with
  | SessionRequest _ POST _ _ _ => true
  | _ => false
  end.

(** The file that an [open] returned. *)
Definition opened_file (o : obs) : option file :=
  match o with
  | Obs e x =>
      match e return answer e -> option file with
      | OpenRb _ => fun r => match r with
                             | inr f => Some f
                             | inl _ => None
                             end
      | _ => fun _ => None
      end x
  end.

(** The file that leaving a [with] block closed. *)
Definition closed_file (o : obs) : option file :=
  match obs_event o with
  | CloseFile f => Some f
  | _ => None
  end.

(** The path that [os.path.exists] was asked about. *)
Definition examined_path (o : obs) : option pystr :=
  match obs_event o with
  | OsPathExists path => Some path
  | _ => None
  end.

(** What [g] finds along a trace, in order. *)
Fixpoint collect {X : Type} (g : obs -> option X) (t : list obs) : list X :=
  match t with
  | [] => []
  | o :: t' =>
      match g o with
      | Some x => x :: collect g t'
      | None => collect g t'
      end
  end.

(** The headers of the two requests (lines 45-48 and 68-71). *)
Definition lookup_headers (token : pystr) : headers :=
  [ (lit "Authorization", lit "token " ++ token);
    (lit "Accept", lit "application/vnd.github.v3+json") ].

Definition upload_headers (token content_type : pystr) : headers :=
  [ (lit "Authorization", lit "token " ++ token);
    (lit "Content-Type", content_type) ].

(** The requests of the program: a GET of the release without body, or a
    POST of a file with a content type, both through a session made by
    [create_retry_session()] and with the token. *)
Definition request_shape (token owner repo tag_name : pystr) (o : obs) : Prop :=
  match obs_event o with
  | SessionRequest session m url hdrs data =>
      session = create_retry_session 5 1 None
      /\ match m with
         | GET =>
             url = release_url owner repo tag_name
             /\ hdrs = lookup_headers token /\ data = None
         | POST =>
             exists content_type f,
               hdrs = upload_headers token content_type
               /\ content_type <> [] /\ data = Some f
         | _ => False
         end
  | _ => True
  end.

(** The lines of lines 53, 88 and 92. *)
Definition lookup_failed_line (response : Response) : pystr :=
  dingbat_cross ++ lit " Failed to get release: "
  ++ str_int (status_code response) ++ lit " - " ++ text response.

Definition upload_failed_line (filename : pystr) (response : Response) : pystr :=
  dingbat_cross ++ lit " Failed to upload " ++ filename ++ lit ": "
  ++ str_int (status_code response) ++ lit " - " ++ text response.

Definition exception_line (file_path : pystr) (err : error) : pystr :=
  dingbat_cross ++ lit " Exception during upload of " ++ file_path
  ++ lit ": " ++ msg err.

(** A release lookup that did not answer 200: another status, or an
    exception. *)
Definition lookup_not_ok (o : obs) : Prop :=
  match request_answer GET o with
  | Some (inr response) => status_code response <> 200
  | Some (inl _) => True
  | None => True
  end.

(** What a call of [upload_to_release] does after a release lookup that
    answered another status than 200 (lines 52-54). *)
Definition lookup_failure_reported (token owner repo tag_name : pystr)
    (t : list obs) (r : outcome result) : Prop :=
  forall session url hdrs data response,
    In (Obs (SessionRequest session GET url hdrs data) (inr response)) t ->
    status_code response <> 200 ->
    r = Returned (false, VNone, VNone)
    /\ t = [ Obs (SessionRequest (create_retry_session 5 1 None) GET
                    (release_url owner repo tag_name) (lookup_headers token) None)
                 (inr response);
             printed (lookup_failed_line response) ].

(** ... after a request that raised a [RequestException] (lines 91-93):
    the line names the path as given when the lookup raised, and as
    [str(Path(file_path))] when the upload raised. *)
Definition transport_error_reported (file_path : pystr)
    (t : list obs) (r : outcome result) : Prop :=
  forall session m url hdrs data err,
    In (Obs (SessionRequest session m url hdrs data) (inl err)) t ->
    is_RequestException (Error err) = true ->
    r = Returned (false, VNone, VNone)
    /\ last t (printed [])
       = printed (exception_line
                    (match m with
                     | GET => file_path
                     | _ => Path.str file_path
                     end) err).

(** ... after an upload that answered another status than 200 and 201
    (lines 87-89). *)
Definition upload_rejection_reported (file_path : pystr)
    (t : list obs) (r : outcome result) : Prop :=
  forall session url hdrs data response,
    In (Obs (SessionRequest session POST url hdrs data) (inr response)) t ->
    status_code response <> 200 -> status_code response <> 201 ->
    r = Returned (false, VNone, VNone)
    /\ last t (printed [])
       = printed (upload_failed_line (Path.name file_path) response).

(** ... after an [open] that raised (line 75). *)
Definition open_failure_raised (file_path : pystr)
    (t : list obs) (r : outcome result) : Prop :=
  forall path err,
    In (Obs (OpenRb path) (inl err)) t ->
    is_RequestException (Error err) = false ->
    r = Uncaught (Error err)
    /\ path = Path.str file_path
    /\ count is_upload t = 0.

(** The upload request of a call (lines 57-80): the URL is the template
    of the lookup of this call up to its first brace, with the quoted
    file name as [name], and the body is the file opened at the path. *)
Definition upload_names_file (file_path : pystr)
    (t : list obs) (r : outcome result) : Prop :=
  forall session url hdrs data a,
    In (Obs (SessionRequest session POST url hdrs data) a) t ->
    exists lookup release template encoded_filename f,
      In lookup t
      /\ request_answer GET lookup = Some (inr release)
      /\ option_map (fun v => getitem v (lit "upload_url")) (json_body release)
         = Some (inr (VStr template))
      /\ url = split_head 123 template ++ lit "?name=" ++ encoded_filename
      /\ ~ In 123 (split_head 123 template)
      /\ unquote encoded_filename = Some (Path.name file_path)
      /\ data = Some f
      /\ In (Obs (OpenRb (Path.str file_path)) (inr f)) t.

(** The paths that a loop has examined are the first input paths, all of
    them when the loop has completed. *)
Definition examined_in_order {A : Type} (file_paths : list pystr)
    (t : list obs) (r : outcome A) : Prop :=
  exists rest,
    file_paths = collect examined_path t ++ rest
    /\ match r with
       | Returned _ => rest = []
       | Uncaught _ => True
       end.

(** Nothing is uploaded when no lookup answered 200. *)
Definition nothing_uploaded (t : list obs) : Prop :=
  Forall lookup_not_ok t ->
  count is_upload t = 0 /\ collect opened_file t = [] /\ uploaded_ids t = [].

(** A character of Base64 text. *)
Definition is_b64_char (c : Z) : Prop :=
  (65 <= c <= 90) \/ (97 <= c <= 122) \/ (48 <= c <= 57)
  \/ c = 43 \/ c = 47 \/ c = 61.

(** More scripted environments. *)
Module Scenario.

(** The tag does not exist: every lookup answers 404. *)
Definition not_found : Response := mkResponse 404 (lit "Not Found") None.

Definition no_such_tag : Scripted.world :=
  Scripted.mkWorld (fun _ => true)
                   (fun _ _ => inr not_found)
                   (fun _ => None)
                   (fun _ => inr 3).

(** The connection to the server fails. *)
Definition connection_error : error :=
  Exn RequestException (lit "Connection refused").

Definition offline : Scripted.world :=
  Scripted.mkWorld (fun _ => true)
                   (fun _ _ => inl connection_error)
                   (fun _ => None)
                   (fun _ => inr 3).

(** The tag exists, the server refuses every upload with 422. *)
Definition unprocessable : Response := mkResponse 422 (lit "Validation Failed") None.

Definition uploads_refused : Scripted.world :=
  Scripted.mkWorld (fun _ => true)
                   (fun m _ => match m with
                               | GET => inr Scripted.release_found
                               | _ => inr unprocessable
                               end)
                   (fun _ => None)
                   (fun _ => inr 3).

(** The path exists and cannot be opened (a directory). *)
Definition is_a_directory : error := Exn OSError (lit "Is a directory").

Definition unreadable : Scripted.world :=
  Scripted.mkWorld (fun _ => true)
                   (fun m _ => match m with
                               | GET => inr Scripted.release_found
                               | _ => inr (Scripted.asset_created 42)
                               end)
                   (fun _ => None)
                   (fun _ => inl is_a_directory).

Definition a_txt : list pystr :=
  [lit "tok"; lit "o"; lit "r"; lit "v1"; lit "a.txt"].

End Scenario.

(** Induction on values, through the lists of a list and of a dict. *)
Section ValueInd.
Variable P : value -> Prop.
Hypothesis HNone : P VNone.
Hypothesis HBool : forall b, P (VBool b).
Hypothesis HInt : forall n, P (VInt n).
Hypothesis HFloat : forall r, P (VFloat r).
Hypothesis HStr : forall s, P (VStr s).
Hypothesis HList : forall l, Forall P l -> P (VList l).
Hypothesis HDict : forall kv, Forall (fun m => P (snd m)) kv -> P (VDict kv).

Fixpoint value_nested_ind (v : value) : P v :=
  match v with
  | VNone => HNone
  | VBool b => HBool b
  | VInt n => HInt n
  | VFloat r => HFloat r
  | VStr s => HStr s
  | VList l =>
      HList l
        ((fix items (l : list value) : Forall P l :=
            match l with
            | [] => Forall_nil P
            | x :: l' => Forall_cons x (value_nested_ind x) (items l')
            end) l)
  | VDict kv =>
      HDict kv
        ((fix members (kv : list (pystr * value)) : Forall (fun m => P (snd m)) kv :=
            match kv with
            | [] => Forall_nil _
            | m :: kv' => Forall_cons m (value_nested_ind (snd m)) (members kv')
            end) kv)
  end.
End ValueInd.

(* ================================================================= *)
(** * Properties *)

(** ** Encodings *)

Lemma Some_eq_inv {A : Type} (x y : A) : Some x = Some y -> x = y.
Proof. congruence. Qed.

Ltac dlia := Z.div_mod_to_equations; lia.

Ltac case_tests :=
  repeat match goal with
  | |- context [?a <? ?b] => destruct (Z.ltb_spec a b)
  | |- context [?a <=? ?b] => destruct (Z.leb_spec a b)
  | |- context [?a =? ?b] => destruct (Z.eqb_spec a b)
  end; cbv beta iota delta [andb orb negb].

Ltac decide_tests :=
  repeat match goal with
  | |- context [?a <=? ?b] =>
      first [ replace (a <=? b) with true by (symmetry; apply Z.leb_le; dlia)
            | replace (a <=? b) with false by (symmetry; apply Z.leb_gt; dlia) ]
  | |- context [?a <? ?b] =>
      first [ replace (a <? b) with true by (symmetry; apply Z.ltb_lt; dlia)
            | replace (a <? b) with false by (symmetry; apply Z.ltb_ge; dlia) ]
  | |- context [?a =? ?b] =>
      first [ replace (a =? b) with true by (symmetry; apply Z.eqb_eq; dlia)
            | replace (a =? b) with false by (symmetry; apply Z.eqb_neq; dlia) ]
  end; cbv beta iota delta [andb orb negb].

Lemma utf8_encode_char_bytes c bs :
  utf8_encode_char c = Some bs -> Forall is_byte bs.
Proof.
  unfold utf8_encode_char, is_byte.
  case_tests; intros Henc; first [discriminate Henc | apply Some_eq_inv in Henc; subst bs].
  all: repeat apply Forall_cons; try apply Forall_nil; dlia.
Qed.

Lemma utf8_decode_encode_char c bs rest :
  utf8_encode_char c = Some bs ->
  utf8_decode (bs ++ rest) = option_map (cons c) (utf8_decode rest).
Proof.
  unfold utf8_encode_char.
  case_tests; intros Henc; first [discriminate Henc | apply Some_eq_inv in Henc; subst bs];
  cbv beta iota delta [app]; cbn [utf8_decode]; unfold is_cont; cbv zeta.
  all: decide_tests.
  all: try (f_equal; f_equal; dlia).
Qed.

Lemma utf8_decode_encode s bs :
  utf8_encode s = Some bs -> utf8_decode bs = Some s.
Proof.
  revert bs. induction s as [| c s IH]; intros bs; cbn [utf8_encode].
  - intros Henc. apply Some_eq_inv in Henc. subst bs. reflexivity.
  - destruct (utf8_encode_char c) as [b1 |] eqn:Hc; [| discriminate].
    destruct (utf8_encode s) as [b2 |]; [| discriminate].
    intros Henc. apply Some_eq_inv in Henc. subst bs.
    rewrite (utf8_decode_encode_char c b1 b2 Hc), (IH b2 eq_refl). reflexivity.
Qed.

Lemma utf8_encode_bytes s bs :
  utf8_encode s = Some bs -> Forall is_byte bs.
Proof.
  revert bs. induction s as [| c s IH]; intros bs; cbn [utf8_encode].
  - intros Henc. apply Some_eq_inv in Henc. subst bs. constructor.
  - destruct (utf8_encode_char c) as [b1 |] eqn:Hc; [| discriminate].
    destruct (utf8_encode s) as [b2 |]; [| discriminate].
    intros Henc. apply Some_eq_inv in Henc. subst bs.
    apply Forall_app. split; [ eapply utf8_encode_char_bytes; eauto | auto ].
Qed.

Lemma utf8_encode_char_scalar c :
  is_scalar c -> exists bs, utf8_encode_char c = Some bs.
Proof.
  unfold is_scalar, utf8_encode_char. intros [Hr Hs].
  case_tests; eauto; lia.
Qed.

Lemma utf8_encode_scalar s :
  Forall is_scalar s -> exists bs, utf8_encode s = Some bs.
Proof.
  induction 1 as [| c s Hc _ [bs' IH]]; cbn [utf8_encode]; eauto.
  destruct (utf8_encode_char_scalar c Hc) as [bs Hbs].
  rewrite Hbs, IH. eauto.
Qed.

(** *** Percent-encoding *)

Lemma hex_value_upper d :
  0 <= d < 16 -> hex_value (hex_upper d) = Some d.
Proof.
  intros Hd. unfold hex_value, hex_upper. case_tests; try lia; f_equal; lia.
Qed.

Lemma unquote_quoter b rest :
  is_byte b ->
  unquote_to_bytes (quoter b ++ rest) = b :: unquote_to_bytes rest.
Proof.
  unfold is_byte, quoter. intros Hb.
  destruct (always_safe b) eqn:Hsafe.
  - cbv beta iota delta [app]. cbn [unquote_to_bytes].
    destruct (Z.eqb_spec b 37) as [-> |]; [discriminate Hsafe | reflexivity].
  - cbv beta iota delta [app]. cbn [unquote_to_bytes].
    rewrite Z.eqb_refl, !hex_value_upper by dlia.
    f_equal. dlia.
Qed.

Lemma unquote_quote_bytes bs :
  Forall is_byte bs -> unquote_to_bytes (quote_from_bytes bs) = bs.
Proof.
  unfold quote_from_bytes.
  induction 1 as [| b bs Hb _ IH]; [reflexivity |].
  cbn [flat_map]. rewrite unquote_quoter, IH; auto.
Qed.

Lemma unquote_quote s q :
  quote s = inr q -> unquote q = Some s.
Proof.
  unfold quote, unquote. destruct (utf8_encode s) as [bs |] eqn:Hs; [| discriminate].
  intros Hq. assert (q = quote_from_bytes bs) by congruence. subst q.
  rewrite unquote_quote_bytes by (eapply utf8_encode_bytes; eauto).
  apply utf8_decode_encode; assumption.
Qed.

Lemma always_safe_hex_upper d :
  0 <= d < 16 -> always_safe (hex_upper d) = true.
Proof.
  intros Hd. unfold always_safe, hex_upper. case_tests; try lia; reflexivity.
Qed.

Lemma quote_from_bytes_chars bs :
  Forall is_byte bs ->
  Forall (fun c => always_safe c = true \/ c = 37) (quote_from_bytes bs).
Proof.
  unfold quote_from_bytes, is_byte.
  induction 1 as [| b bs Hb _ IH]; [constructor |].
  cbn [flat_map]. apply Forall_app. split; [| exact IH].
  unfold quoter. destruct (always_safe b) eqn:Hsafe.
  - constructor; [left; exact Hsafe | constructor].
  - constructor; [right; reflexivity |].
    constructor; [left; apply always_safe_hex_upper; dlia |].
    constructor; [left; apply always_safe_hex_upper; dlia | constructor].
Qed.

(** C7 (amended): for a file name made of Unicode characters (scalar
    values, no lone surrogate), [quote(filename, safe='')] succeeds, its result holds only unreserved
    characters and percent signs, and percent-decoding it gives the file
    name back. *)
Theorem quote_roundtrip (filename : pystr) :
  Forall is_scalar filename ->
  exists encoded_filename,
    quote filename = inr encoded_filename
    /\ Forall (fun c => always_safe c = true \/ c = 37) encoded_filename
    /\ unquote encoded_filename = Some filename.
Proof.
  intros Hs. destruct (utf8_encode_scalar filename Hs) as [bs Hbs].
  exists (quote_from_bytes bs).
  assert (Hq : quote filename = inr (quote_from_bytes bs))
    by (unfold quote; rewrite Hbs; reflexivity).
  split; [exact Hq |]. split.
  - apply quote_from_bytes_chars. eapply utf8_encode_bytes. exact Hbs.
  - apply unquote_quote. exact Hq.
Qed.

(** *** Base64 *)



Lemma b64_char_ascii i :
  0 <= i < 64 -> 0 <= b64_char i < 128.
Proof.
  intros Hi. unfold b64_char. case_tests; lia.
Qed.

(** Induction on a list, three elements at a time. *)
Lemma list_ind3 {A : Type} (P : list A -> Prop) :
  P [] -> (forall a, P [a]) -> (forall a b, P [a; b]) ->
  (forall a b c r, P r -> P (a :: b :: c :: r)) ->
  forall l, P l.
Proof.
  intros H0 H1 H2 H3.
  fix IH 1. intros [| a [| b [| c r]]];
    [ exact H0 | apply H1 | apply H2 | apply H3; apply IH ].
Qed.


Lemma b64encode_ascii bs :
  Forall is_byte bs -> decode_ascii (b64encode bs) = Some (b64encode bs).
Proof.
  unfold decode_ascii, is_byte. intros Hbs.
  replace (forallb _ (b64encode bs)) with true; [reflexivity |].
  symmetry. apply forallb_forall. revert Hbs.
  assert (Hch : forall i x, 0 <= i < 64 -> x = b64_char i ->
                (0 <=? x) && (x <? 128) = true).
  { intros i x Hi ->. pose proof (b64_char_ascii i Hi).
    apply andb_true_iff. split; [apply Z.leb_le | apply Z.ltb_lt]; lia. }
  induction bs as [| a | a b | a b c r IH] using list_ind3; intros Hbs x Hx.
  - destruct Hx.
  - inversion_clear Hbs as [| ? ? Ha _].
    cbn [b64encode In] in Hx.
    destruct Hx as [<- | [<- | [<- | [<- | []]]]];
      try reflexivity; eapply Hch; try reflexivity; dlia.
  - inversion_clear Hbs as [| ? ? Ha Hbs']. inversion_clear Hbs' as [| ? ? Hb _].
    cbn [b64encode In] in Hx.
    destruct Hx as [<- | [<- | [<- | [<- | []]]]];
      try reflexivity; eapply Hch; try reflexivity; dlia.
  - inversion_clear Hbs as [| ? ? Ha Hbs']. inversion_clear Hbs' as [| ? ? Hb Hbs].
    inversion_clear Hbs as [| ? ? Hc Hr].
    cbn [b64encode In] in Hx.
    destruct Hx as [<- | [<- | [<- | [<- | Hx]]]];
      try (eapply Hch; try reflexivity; dlia).
    apply IH; assumption.
Qed.

(** *** JSON text *)

Lemma lit_bytes s : Forall is_byte (lit s).
Proof.
  unfold lit. induction s as [| a s IH]; cbn [list_ascii_of_string map]; constructor; auto.
  unfold is_byte. pose proof (N_ascii_bounded a). lia.
Qed.

Lemma hex_lower_byte d : 0 <= d < 16 -> is_byte (hex_lower d).
Proof. unfold is_byte, hex_lower. intros Hd. case_tests; lia. Qed.

Lemma u_escape_bytes c : Forall is_byte (u_escape c).
Proof.
  unfold u_escape.
  repeat apply Forall_cons; try apply Forall_nil;
    try apply hex_lower_byte; unfold is_byte; dlia.
Qed.

Lemma json_escape_char_bytes c : Forall is_byte (json_escape_char c).
Proof.
  unfold json_escape_char.
  case_tests; try apply Forall_app; try split; try apply u_escape_bytes;
    repeat apply Forall_cons; try apply Forall_nil; unfold is_byte; lia.
Qed.

Lemma json_string_bytes s : Forall is_byte (json_string s).
Proof.
  unfold json_string. apply Forall_app. split; [repeat constructor; unfold is_byte; lia |].
  apply Forall_app. split; [| repeat constructor; unfold is_byte; lia].
  induction s as [| c s IH]; cbn [flat_map]; [constructor |].
  apply Forall_app. split; [apply json_escape_char_bytes | exact IH].
Qed.

Lemma json_dumps_bytes v : Forall is_byte (json_dumps v).
Proof.
  induction v as [| b | n | r | s | l IH | kv IH] using value_nested_ind;
    cbn [json_dumps].
  - apply lit_bytes.
  - destruct b; apply lit_bytes.
  - apply lit_bytes.
  - destruct r; apply lit_bytes.
  - apply json_string_bytes.
  - apply Forall_app. split; [repeat constructor; unfold is_byte; lia |].
    apply Forall_app. split; [| repeat constructor; unfold is_byte; lia].
    induction IH as [| x l Hx Hl IHl]; [constructor |].
    destruct l as [| y l']; [exact Hx |].
    apply Forall_app. split; [exact Hx |].
    apply Forall_app. split; [apply lit_bytes | exact IHl].
  - apply Forall_app. split; [repeat constructor; unfold is_byte; lia |].
    apply Forall_app. split; [| repeat constructor; unfold is_byte; lia].
    induction IH as [| [k x] kv Hx Hkv IHkv]; [constructor |].
    cbn [snd] in Hx.
    assert (Hm : Forall is_byte (json_string k ++ lit ": " ++ json_dumps x)).
    { apply Forall_app. split; [apply json_string_bytes |].
      apply Forall_app. split; [apply lit_bytes | exact Hx]. }
    destruct kv as [| m kv']; [exact Hm |].
    rewrite !app_assoc. apply Forall_app. split; [| exact IHkv].
    apply Forall_app. split; [| apply lit_bytes].
    rewrite <- !app_assoc. exact Hm.
Qed.

Lemma utf8_encode_latin s :
  Forall is_byte s -> exists bs, utf8_encode s = Some bs.
Proof.
  induction 1 as [| c s Hc _ [bs' IH]]; cbn [utf8_encode]; eauto.
  rewrite IH. unfold is_byte in Hc. unfold utf8_encode_char.
  case_tests; eauto; lia.
Qed.

(** ** The retry policy of the session *)

Import RetryPolicy.

Lemma is_retry_increment retry a m status :
  is_retry (increment retry a) m status = is_retry retry m status.
Proof. destruct a; reflexivity. Qed.

(** Responses that are retried within the budget, then one that is not:
    the last one is returned. *)
Lemma urlopen_retried retried :
  forall retry m attempt final rest,
    Forall (fun r => is_retry retry m (status_code r) = true) retried ->
    Z.of_nat (List.length retried) <= total retry ->
    0 <= read retry -> 0 <= connect retry ->
    is_retry retry m (status_code final) = false ->
    snd (urlopen retry m attempt (map WireResponse retried ++ WireResponse final :: rest))
    = inr final.
Proof.
  induction retried as [| r retried IH]; intros retry m attempt final rest Hall Hlen Hr Hc Hfinal.
  - cbn [map app urlopen]. rewrite Hfinal. reflexivity.
  - inversion_clear Hall as [| ? ? Hretry Hall'].
    cbn [map app urlopen]. rewrite Hretry.
    cbn [List.length] in Hlen.
    replace (is_exhausted (increment retry (WireResponse r))) with false.
    + specialize (IH (increment retry (WireResponse r)) m (attempt + 1) final rest).
      destruct (urlopen (increment retry (WireResponse r)) m (attempt + 1)
                  (map WireResponse retried ++ WireResponse final :: rest)) as [delays res].
      cbn [snd] in *. apply IH.
      * eapply Forall_impl; [| exact Hall']. intros x Hx. exact Hx.
      * cbn [increment total]. lia.
      * exact Hr.
      * exact Hc.
      * exact Hfinal.
    + symmetry. unfold is_exhausted. cbn [increment total read connect].
      apply Z.ltb_ge. lia.
Qed.

Lemma is_retry_session m status :
  In m [HEAD; GET; PUT; DELETE; OPTIONS; TRACE; POST] ->
  is_retry (mkRetry 5 5 5 1 [429; 500; 502; 503; 504]
                    [HEAD; GET; PUT; DELETE; OPTIONS; TRACE; POST]) m status
  = existsb (Z.eqb status) [429; 500; 502; 503; 504].
Proof.
  intros Hm. unfold is_retry. cbn [allowed_methods status_forcelist].
  replace (existsb (http_method_eqb m) _) with true; [reflexivity |].
  cbn [In] in Hm.
  repeat match goal with H : _ \/ _ |- _ => destruct H as [<- | H] end;
    try reflexivity. destruct Hm.
Qed.

Lemma retryable_spec status :
  existsb (Z.eqb status) [429; 500; 502; 503; 504] = true <-> retryable status.
Proof.
  unfold retryable. rewrite existsb_exists. split.
  - intros (x & Hx & Heq). apply Z.eqb_eq in Heq. subst x. exact Hx.
  - intros H. exists status. split; [exact H | apply Z.eqb_refl].
Qed.

(** C8: with the session of the program, a request whose answers are
    fewer than five retryable statuses and then a 200 returns that 200
    response; a 404 at the end is returned as a response as well. *)
Theorem retried_then_returned m url retried final rest :
  In m [HEAD; GET; PUT; DELETE; OPTIONS; TRACE; POST] ->
  starts_with (lit "https://") url = true ->
  Forall (fun r => retryable (status_code r)) retried ->
  (List.length retried < 5)%nat ->
  status_code final = 200 \/ status_code final = 404 ->
  snd (send (create_retry_session 5 1 None) m url
            (map WireResponse retried ++ WireResponse final :: rest))
  = inr final.
Proof.
  intros Hm Hurl Hretried Hlen Hfinal.
  unfold send, create_retry_session, mount. cbn [adapters get_adapter].
  rewrite Hurl.
  apply urlopen_retried.
  - eapply Forall_impl; [| exact Hretried].
    intros r Hr. rewrite is_retry_session by exact Hm. apply retryable_spec. exact Hr.
  - cbn [total]. lia.
  - cbn [read]. lia.
  - cbn [connect]. lia.
  - rewrite is_retry_session by exact Hm.
    destruct Hfinal as [-> | ->]; reflexivity.
Qed.

(** ** Runs and what always holds of them *)

Lemma always_mono {A : Type} (p : prog A) (Q Q' : list obs -> outcome A -> Prop) :
  (forall t r, Q t r -> Q' t r) -> always p Q -> always p Q'.
Proof.
  revert Q Q'. induction p as [a | e | e k IH]; intros Q Q' HQ H.
  - apply HQ, H.
  - apply HQ, H.
  - intros x. eapply IH; [| apply H]. intros t r. apply HQ.
Qed.

Lemma always_bind {A B : Type} (p : prog A) (f : A -> prog B)
    (Q : list obs -> outcome B -> Prop) :
  always p (fun t r =>
              match r with
              | Returned a => always (f a) (fun t2 r2 => Q (t ++ t2) r2)
              | Uncaught e => Q t (Uncaught e)
              end) ->
  always (bind p f) Q.
Proof.
  revert Q. induction p as [a | e | e k IH]; intros Q H.
  - exact H.
  - exact H.
  - intros x. apply IH. exact (H x).
Qed.

Section RunFacts.
Context {W : Type} (handle : forall e : event, W -> answer e * W).

Lemma always_run {A : Type} (p : prog A) (Q : list obs -> outcome A -> Prop) :
  always p Q ->
  forall w, Q (trace_of (run handle p w)) (outcome_of (run handle p w)).
Proof.
  revert Q. induction p as [a | e | e k IH]; intros Q H w.
  - exact H.
  - exact H.
  - cbn in *. destruct (handle e w) as [x w1]. specialize (IH x _ (H x) w1).
    destruct (run handle (k x) w1) as [[t r] w2]. exact IH.
Qed.

Lemma run_bind {A B : Type} (p : prog A) (f : A -> prog B) (w : W) :
  run handle (bind p f) w =
  match run handle p w with
  | (t, Returned a, w1) =>
      match run handle (f a) w1 with
      | (t2, r2, w2) => (t ++ t2, r2, w2)
      end
  | (t, Uncaught e, w1) => (t, Uncaught e, w1)
  end.
Proof.
  revert w. induction p as [a | e | e k IH]; intros w; cbn.
  - destruct (run handle (f a) w) as [[t2 r2] w2]. reflexivity.
  - reflexivity.
  - destruct (handle e w) as [x w1]. rewrite IH.
    destruct (run handle (k x) w1) as [[t r] w2].
    destruct r as [a | e0]; [| reflexivity].
    destruct (run handle (f a) w2) as [[t2 r2] w3]. reflexivity.
Qed.
End RunFacts.

(** ** Counting and collecting along a trace *)

Lemma count_app f t1 t2 : count f (t1 ++ t2) = count f t1 + count f t2.
Proof. unfold count. rewrite filter_app, length_app. lia. Qed.

Lemma count_cons f o t : count f (o :: t) = (if f o then 1 else 0) + count f t.
Proof. unfold count. cbn [filter]. destruct (f o); cbn [List.length]; lia. Qed.

Lemma uploaded_ids_app t1 t2 :
  uploaded_ids (t1 ++ t2) = uploaded_ids t1 ++ uploaded_ids t2.
Proof.
  induction t1 as [| o t1 IH]; [reflexivity |].
  change ((o :: t1) ++ t2) with (o :: (t1 ++ t2)).
  cbn [uploaded_ids]. rewrite IH. destruct (uploaded_id o); reflexivity.
Qed.

Lemma pystr_eqb_refl s : pystr_eqb s s = true.
Proof.
  induction s as [| c s IH]; [reflexivity |].
  cbn [pystr_eqb]. rewrite IH, Z.eqb_refl. reflexivity.
Qed.

#[local] Arguments lit : simpl never.
#[local] Arguments str_int : simpl never.
#[local] Arguments Path.name : simpl never.
#[local] Arguments Path.str : simpl never.
#[local] Arguments create_retry_session : simpl never.
#[local] Arguments release_url : simpl never.
#[local] Arguments app : simpl never.
#[local] Arguments utf8_encode : simpl never.
#[local] Arguments quote_from_bytes : simpl never.
#[local] Arguments split_head : simpl never.
#[local] Arguments dict_lookup : simpl never.
#[local] Arguments pystr_eqb : simpl never.
#[local] Arguments Z.add : simpl never.
#[local] Arguments Z.eqb : simpl never.


(** ** upload_to_release *)

Ltac innermost x :=
  lazymatch x with
  | context [match ?y with _ => _ end] => innermost y
  | _ => x
  end.

Lemma print_writable f :
  writable f = true -> print f = Vis (PrintLine (format f)) Ret.
Proof.
  intros H. unfold print, trigger. rewrite H. reflexivity.
Qed.

Lemma print_unwritable f :
  writable f = false ->
  print f = Raise (Error (Exn UnicodeEncodeError (lit "surrogates not allowed"))).
Proof.
  intros H. unfold print. rewrite H. reflexivity.
Qed.

#[local] Arguments print : simpl never.

(** The next [print]: the line is written, or the call raises. *)
Ltac print_step :=
  match goal with
  | |- context [print ?f] =>
      first [ rewrite (print_writable f) by (vm_compute; reflexivity)
            | rewrite (print_unwritable f) by (vm_compute; reflexivity) ]
  end.

(** One step through a program: take the next answer of the environment,
    or split on what the next test depends on. *)
Ltac step :=
  match goal with
  | |- forall _, _ => intro
  | |- context [print _] => print_step
  | |- context [lift_sum ?x] => is_var x; destruct x
  | |- context [match ?x with _ => _ end] => let y := innermost x in destruct y eqn:?
  end; cbn.

Ltac upload_cases :=
  unfold upload_to_release, except_RequestException, quote, getitem, dict_get,
    split_brace_head, response_json, lift_sum, is_RequestException;
  cbn; repeat step.

#[local] Arguments upload_shape : simpl never.
#[local] Arguments one_lookup : simpl never.
#[local] Arguments null_id_reported : simpl never.

Lemma upload_to_release_shape token owner repo tag_name file_path :
  always (upload_to_release token owner repo tag_name file_path) (upload_shape file_path).
Proof.
  upload_cases.
  all: unfold upload_shape; cbn; try (intuition congruence).
  all: try (eexists; split; reflexivity).
  all: unfold uploaded_id, dict_get; cbn.
  all: repeat match goal with H : _ = _ |- _ => rewrite H end; cbn.
  all: try (intuition congruence).
Qed.

Lemma upload_to_release_lookup token owner repo tag_name file_path :
  always (upload_to_release token owner repo tag_name file_path)
         (fun t _ => one_lookup (release_url owner repo tag_name) t).
Proof.
  upload_cases.
  all: unfold one_lookup, count, is_release_lookup; cbn; rewrite pystr_eqb_refl.
  all: repeat split; reflexivity.
Qed.

Lemma obs_request_inv s m url h d a s' m' url' h' d' a' :
  Obs (SessionRequest s m url h d) a = Obs (SessionRequest s' m' url' h' d') a' ->
  m = m' /\ a = a'.
Proof.
  intros H. split.
  - apply (f_equal obs_event) in H. cbn in H. congruence.
  - pose proof (f_equal (request_answer m) H) as Ha. cbn in Ha.
    apply (f_equal obs_event) in H. cbn in H.
    assert (m' = m) by congruence. subst m'.
    destruct m; cbn in Ha; congruence.
Qed.

Ltac no_such_obs :=
  match goal with
  | H : Obs _ _ = Obs _ _ |- _ =>
      first [ apply obs_request_inv in H; destruct H; first [discriminate | congruence]
            | apply (f_equal obs_event) in H; discriminate H ]
  end.

Lemma upload_to_release_null_id token owner repo tag_name file_path :
  always (upload_to_release token owner repo tag_name file_path)
         (null_id_reported file_path).
Proof.
  upload_cases.
  all: unfold null_id_reported;
    intros o Hin (session & url & hdrs & data & response & kv' & -> & Hst & Hjs & Hid).
  all: cbn [In] in Hin.
  all: repeat match goal with
       | H : _ \/ _ |- _ => destruct H as [H | H]
       | H : False |- _ => destruct H
       end.
  all: try no_such_obs.
  all: match goal with
       | H : Obs _ _ = Obs _ _ |- _ =>
           apply obs_request_inv in H; destruct H as [_ H]; injection H as H; subst
       end.
  all: try reflexivity.
  all: exfalso; rewrite Hst in *; cbn in *; try congruence.
  all: match goal with
       | H : (_ =? _) || (_ =? _) = false |- _ => compute in H; discriminate H
       end.
Qed.

(** ** The loop *)

(** One iteration of the loop: the path is missing, or the upload returns
    or raises. *)
Lemma always_main_loop_cons token owner repo tag_name idx file_path rest st
    (Q : list obs -> outcome loop_state -> Prop) :
  (forall x,
     always (main_loop token owner repo tag_name (idx + 1) rest (after_failure st))
       (fun t r =>
          Q (Obs (OsPathExists file_path) false
             :: Obs (PrintLine (dingbat_cross ++ lit " File not found: " ++ file_path)) x
             :: t) r)) ->
  always (upload_to_release token owner repo tag_name file_path)
    (fun t1 r1 =>
       match r1 with
       | Returned (true, original_name, asset_id) =>
           always (main_loop token owner repo tag_name (idx + 1) rest
                     (after_success st idx original_name asset_id))
             (fun t2 r2 => Q (Obs (OsPathExists file_path) true :: t1 ++ t2) r2)
       | Returned (false, _, _) =>
           always (main_loop token owner repo tag_name (idx + 1) rest (after_failure st))
             (fun t2 r2 => Q (Obs (OsPathExists file_path) true :: t1 ++ t2) r2)
       | Uncaught e => Q (Obs (OsPathExists file_path) true :: t1) (Uncaught e)
       end) ->
  always (main_loop token owner repo tag_name idx (file_path :: rest) st) Q.
Proof.
  intros Hmissing Hupload.
  cbn [main_loop]. unfold os_path_exists, trigger. cbn [bind always].
  intros [|]; cbn [negb].
  - apply always_bind. eapply always_mono; [| exact Hupload].
    intros t1 [[[[|] original_name] asset_id] | e] H; exact H.
  - print_step. cbn [bind always]. exact Hmissing.
Qed.

(** The counters after the loop (lines 106-125). *)
Lemma main_loop_counts token owner repo tag_name file_paths :
  forall idx st,
    always (main_loop token owner repo tag_name idx file_paths st)
      (fun _ r =>
         match r with
         | Returned st' =>
             success_count st' + fail_count st'
             = success_count st + fail_count st + Z.of_nat (List.length file_paths)
         | Uncaught _ => True
         end).
Proof.
  induction file_paths as [| file_path rest IH]; intros idx st.
  - cbn. lia.
  - apply always_main_loop_cons.
    + intros x. eapply always_mono; [| apply IH].
      intros t [st' |]; cbn [after_failure success_count fail_count List.length]; [lia | auto].
    + eapply always_mono; [| apply upload_to_release_shape].
      intros t1 [[[[|] original_name] asset_id] | e] _; [| | exact I].
      * eapply always_mono; [| apply IH].
        intros t [st' |]; unfold after_success; cbn [success_count fail_count List.length]; [lia | auto].
      * eapply always_mono; [| apply IH].
        intros t [st' |]; unfold after_failure; cbn [success_count fail_count List.length]; [lia | auto].
Qed.


(** An exception that leaves the loop is an ordinary one. *)
Lemma main_loop_uncaught token owner repo tag_name file_paths :
  forall idx st,
    always (main_loop token owner repo tag_name idx file_paths st)
      (fun _ r =>
         match r with
         | Returned _ => True
         | Uncaught e => exists err, e = Error err
         end).
Proof.
  induction file_paths as [| file_path rest IH]; intros idx st.
  - exact I.
  - apply always_main_loop_cons.
    + intros x. eapply always_mono; [| apply IH]. auto.
    + eapply always_mono; [| apply upload_to_release_shape].
      intros t1 [[[[|] original_name] asset_id] | e] H.
      * eapply always_mono; [| apply IH]. auto.
      * eapply always_mono; [| apply IH]. auto.
      * destruct H as (err & -> & _). eauto.
Qed.

(** Every existing path is followed by its own lookup of the release. *)
Lemma main_loop_lookups token owner repo tag_name file_paths :
  forall idx st,
    always (main_loop token owner repo tag_name idx file_paths st)
      (fun t r =>
         count (is_release_lookup (release_url owner repo tag_name)) t
         = count is_existing t
         /\ match r with
            | Returned _ => count is_examined t = Z.of_nat (List.length file_paths)
            | Uncaught _ => True
            end).
Proof.
  induction file_paths as [| file_path rest IH]; intros idx st.
  - cbn. auto.
  - apply always_main_loop_cons.
    + intros x. eapply always_mono; [| apply IH].
      intros t r [Hc Hn]. rewrite !count_cons. cbn - [count Z.of_nat].
      split; [lia |]. destruct r; [lia | exact I].
    + eapply always_mono; [| apply upload_to_release_lookup].
      intros t1 r1 (H1 & H2 & H3).
      assert (Hstep : forall Q' : list obs -> outcome loop_state -> Prop,
                 (forall t2 r2,
                    (count (is_release_lookup (release_url owner repo tag_name)) t2
                     = count is_existing t2
                     /\ match r2 with
                        | Returned _ => count is_examined t2 = Z.of_nat (List.length rest)
                        | Uncaught _ => True
                        end) ->
                    Q' t2 r2) ->
                 forall st1, always (main_loop token owner repo tag_name (idx + 1) rest st1) Q').
      { intros Q' HQ' st1. eapply always_mono; [| apply IH]. exact HQ'. }
      destruct r1 as [[[[|] original_name] asset_id] | e].
      * apply Hstep. intros t2 r2 [Hc Hn].
        rewrite !count_cons, !count_app. cbn - [count Z.of_nat].
        split; [lia |]. destruct r2; [lia | exact I].
      * apply Hstep. intros t2 r2 [Hc Hn].
        rewrite !count_cons, !count_app. cbn - [count Z.of_nat].
        split; [lia |]. destruct r2; [lia | exact I].
      * rewrite !count_cons. cbn - [count Z.of_nat]. split; [lia | exact I].
Qed.

(** ** The mapping *)

Lemma records_from_shift idx file_path rest records :
  records_from (idx + 1) rest records ->
  records_from idx (file_path :: rest) records
  /\ Forall (fun i => idx < i) (map record_index records).
Proof.
  intros [Hsorted Hall]. split; [split; [exact Hsorted |] |].
  - eapply Forall_impl; [| exact Hall].
    intros r (Hle & p & Hnth & Hname). split; [lia |].
    exists p. split; [| exact Hname].
    replace (Z.to_nat (record_index r - idx))
      with (S (Z.to_nat (record_index r - (idx + 1)))) by lia.
    exact Hnth.
  - apply Forall_map. eapply Forall_impl; [| exact Hall].
    intros r (Hle & _). lia.
Qed.

Lemma records_from_cons idx file_path rest asset_id records :
  records_from (idx + 1) rest records ->
  records_from idx (file_path :: rest) ((idx, Path.name file_path, asset_id) :: records).
Proof.
  intros H. destruct (records_from_shift idx file_path rest records H) as [[Hs Ha] Hlt].
  split.
  - cbn [map]. constructor; [exact Hs | exact Hlt].
  - constructor; [| exact Ha].
    unfold record_index, record_name. cbn [fst snd]. split; [lia |].
    exists file_path. rewrite Z.sub_diag. split; reflexivity.
Qed.

Lemma main_loop_mapping token owner repo tag_name file_paths :
  forall idx st,
    always (main_loop token owner repo tag_name idx file_paths st)
           (mapping_grows idx file_paths st).
Proof.
  induction file_paths as [| file_path rest IH]; intros idx st.
  - exists []. cbn. rewrite app_nil_r.
    repeat split; try lia; constructor.
  - apply always_main_loop_cons.
    + intros x. eapply always_mono; [| apply IH].
      intros t [st' |]; [| auto].
      intros (records & Hm & Hn & Hids & Hrec). exists records.
      repeat split; try assumption.
      * apply (records_from_shift idx file_path rest records Hrec).
      * apply (records_from_shift idx file_path rest records Hrec).
    + eapply always_mono; [| apply upload_to_release_shape].
      intros t1 [[[[|] original_name] asset_id] | e] H; [| | exact I].
      * destruct H as [-> Hid]. eapply always_mono; [| apply IH].
        intros t2 [st' |]; [| auto].
        intros (records & Hm & Hn & Hids & Hrec).
        exists ((idx, Path.name file_path, asset_id) :: records).
        split; [| split; [| split]].
        -- rewrite Hm. unfold after_success. cbn [filename_mapping map record_of].
           rewrite <- app_assoc. reflexivity.
        -- cbn [List.length]. revert Hn. unfold after_success. cbn [success_count]. lia.
        -- change (Obs (OsPathExists file_path) true :: t1 ++ t2)
             with ([Obs (OsPathExists file_path) true] ++ t1 ++ t2).
           rewrite !uploaded_ids_app, Hid, <- Hids. reflexivity.
        -- apply records_from_cons. exact Hrec.
      * destruct H as (_ & _ & Hid). eapply always_mono; [| apply IH].
        intros t2 [st' |]; [| auto].
        intros (records & Hm & Hn & Hids & Hrec). exists records.
        split; [exact Hm | split; [exact Hn | split]].
        -- change (Obs (OsPathExists file_path) true :: t1 ++ t2)
             with ([Obs (OsPathExists file_path) true] ++ t1 ++ t2).
           rewrite !uploaded_ids_app, Hid, <- Hids. reflexivity.
        -- apply (records_from_shift idx file_path rest records Hrec).
Qed.

(** ** The report *)

Lemma encode_mapping_ret filename_mapping :
  exists bs,
    utf8_encode (json_dumps (VList filename_mapping)) = Some bs
    /\ encode_mapping filename_mapping = Ret (b64encode bs).
Proof.
  destruct (utf8_encode_latin _ (json_dumps_bytes (VList filename_mapping))) as [bs Hbs].
  exists bs. split; [exact Hbs |].
  unfold encode_mapping. rewrite Hbs.
  rewrite b64encode_ascii by (eapply utf8_encode_bytes; exact Hbs).
  reflexivity.
Qed.

(** What line 127 would print. *)
Lemma format_results st : format (results_fstring st) = results_line st.
Proof. reflexivity. Qed.

Lemma report_always st : always (report st) (report_shape st).
Proof.
  unfold report, report_shape.
  rewrite (print_unwritable (results_fstring st)) by (vm_compute; reflexivity).
  split; reflexivity.
Qed.

Section Script.
Context {W : Type} (handle : forall e : event, W -> answer e * W).

(** With too few arguments: the usage line and status 1 (lines 96-98). *)
Lemma run_main_usage argv w :
  (List.length argv < 5)%nat ->
  trace_of (run handle (main argv) w) = [printed usage]
  /\ outcome_of (run handle (main argv) w) = Uncaught (SystemExit 1).
Proof.
  intros Hlen. unfold main.
  replace (Z.of_nat (List.length argv) <? 5) with true
    by (symmetry; apply Z.ltb_lt; lia).
  apply (always_run handle (print [Lit usage] ;; sys_exit 1)
           (fun t r => t = [printed usage] /\ r = Uncaught (SystemExit 1))).
  print_step. intros []. split; reflexivity.
Qed.

(** Otherwise: the loop, then the report. *)
Lemma run_main argv w :
  (5 <= List.length argv)%nat ->
  run handle (main argv) w =
  match run handle (orchestrator argv) w with
  | (t, Returned st, w1) =>
      match run handle (report st) w1 with
      | (t2, r2, w2) => (t ++ t2, r2, w2)
      end
  | (t, Uncaught e, w1) => (t, Uncaught e, w1)
  end.
Proof.
  intros Hlen. unfold main.
  replace (Z.of_nat (List.length argv) <? 5) with false
    by (symmetry; apply Z.ltb_ge; lia).
  cbv zeta. apply run_bind.
Qed.

Lemma run_report st w :
  report_shape st (trace_of (run handle (report st) w))
                  (outcome_of (run handle (report st) w)).
Proof. apply always_run, report_always. Qed.

(** The run of [main] when the loop completes. *)
Lemma run_main_completed argv w t st w1 :
  (5 <= List.length argv)%nat ->
  run handle (orchestrator argv) w = (t, Returned st, w1) ->
  exists t2,
    trace_of (run handle (main argv) w) = t ++ t2
    /\ report_shape st t2 (outcome_of (run handle (main argv) w)).
Proof.
  intros Hlen Hloop. rewrite run_main, Hloop by exact Hlen.
  pose proof (run_report st w1) as Hrep.
  destruct (run handle (report st) w1) as [[t2 r2] w2].
  exists t2. split; [reflexivity | exact Hrep].
Qed.

(** The run of [main] when an exception leaves the loop. *)
Lemma run_main_aborted argv w t e w1 :
  (5 <= List.length argv)%nat ->
  run handle (orchestrator argv) w = (t, Uncaught e, w1) ->
  run handle (main argv) w = (t, Uncaught e, w1)
  /\ exists err, e = Error err.
Proof.
  intros Hlen Hloop. rewrite run_main, Hloop by exact Hlen.
  split; [reflexivity |].
  pose proof (always_run handle _ _
                (main_loop_uncaught (nth 1 argv []) (nth 2 argv []) (nth 3 argv [])
                   (nth 4 argv []) (skipn 5 argv) 0 (mkState 0 0 [])) w) as H.
  fold (orchestrator argv) in H. rewrite Hloop in H. exact H.
Qed.

End Script.

Section Orchestrator.
Context {W : Type} (handle : forall e : event, W -> answer e * W).

Lemma run_main_no_files argv w :
  (5 <= List.length argv)%nat -> skipn 5 argv = [] ->
  trace_of (run handle (main argv) w) = []
  /\ outcome_of (run handle (main argv) w)
     = Uncaught (Error (Exn UnicodeEncodeError (lit "surrogates not allowed"))).
Proof.
  intros Hlen Hnone.
  assert (Hloop : run handle (orchestrator argv) w = ([], Returned (mkState 0 0 []), w)).
  { unfold orchestrator. rewrite Hnone. reflexivity. }
  destruct (run_main_completed handle argv w _ _ _ Hlen Hloop) as (t2 & Ht & -> & Hr).
  split; [exact Ht | exact Hr].
Qed.

Lemma run_main_loop_counts token owner repo tag_name idx file_paths st w t st' w1 :
  run handle (main_loop token owner repo tag_name idx file_paths st) w
  = (t, Returned st', w1) ->
  success_count st' + fail_count st'
  = success_count st + fail_count st + Z.of_nat (List.length file_paths).
Proof.
  intros Hrun.
  pose proof (always_run handle _ _
                (main_loop_counts token owner repo tag_name file_paths idx st) w) as H.
  rewrite Hrun in H. exact H.
Qed.

(** C5: after the loop has completed, [success_count + fail_count] is the
    number of input paths. *)
Theorem counters_add_up token owner repo tag_name file_paths w t st w1 :
  run handle (main_loop token owner repo tag_name 0 file_paths (mkState 0 0 [])) w
  = (t, Returned st, w1) ->
  success_count st + fail_count st = Z.of_nat (List.length file_paths).
Proof.
  intros Hrun. apply run_main_loop_counts in Hrun. exact Hrun.
Qed.


(** C9: an upload answered 200 or 201 with a JSON object without ['id']
    makes [upload_to_release] return [(True, filename, None)], and the
    loop goes on with one more success and, appended to the mapping, the
    record [{'index': idx, 'original_name': filename, 'asset_id': None}]. *)
Theorem upload_without_id_succeeds token owner repo tag_name file_path idx rest st w0 w o :
  handle (OsPathExists file_path) w0 = (true, w) ->
  In o (trace_of (run handle (upload_to_release token owner repo tag_name file_path) w)) ->
  accepted_without_id o ->
  outcome_of (run handle (upload_to_release token owner repo tag_name file_path) w)
  = Returned (true, VStr (Path.name file_path), VNone)
  /\ outcome_of (run handle (main_loop token owner repo tag_name idx
                               (file_path :: rest) st) w0)
     = outcome_of
         (run handle
            (main_loop token owner repo tag_name (idx + 1) rest
               (mkState (success_count st + 1) (fail_count st)
                  (filename_mapping st
                   ++ [VDict [ (lit "index", VInt idx);
                               (lit "original_name", VStr (Path.name file_path));
                               (lit "asset_id", VNone) ]])))
            (snd (run handle (upload_to_release token owner repo tag_name file_path) w))).
Proof.
  intros Hexists Hin Hacc.
  pose proof (always_run handle _ _
                (upload_to_release_null_id token owner repo tag_name file_path) w
                o Hin Hacc) as Hup.
  split; [exact Hup |].
  cbn [main_loop]. unfold os_path_exists, trigger. cbn [bind run].
  rewrite Hexists. cbn [negb]. rewrite run_bind.
  destruct (run handle (upload_to_release token owner repo tag_name file_path) w)
    as [[t1 r1] w2].
  cbn [outcome_of fst snd] in Hup. subst r1. cbn [snd].
  destruct (run handle _ w2) as [[t2 r2] w3]. reflexivity.
Qed.

(** C3 (amended): the release is looked up once for every input path
    found to exist, by the call of [upload_to_release] for that path: a
    run issues as many GETs to the releases-by-tag endpoint as it found
    existing input files. *)
Theorem release_looked_up_per_existing_file argv w :
  let t := trace_of (run handle (main argv) w) in
  count (is_release_lookup
           (release_url (nth 2 argv []) (nth 3 argv []) (nth 4 argv []))) t
  = count is_existing t.
Proof.
  cbv zeta.
  destruct (Nat.lt_ge_cases (List.length argv) 5) as [Hshort | Hlen].
  - destruct (run_main_usage handle argv w Hshort) as [-> _].
    reflexivity.
  - pose proof (always_run handle _ _
                  (main_loop_lookups (nth 1 argv []) (nth 2 argv []) (nth 3 argv [])
                     (nth 4 argv []) (skipn 5 argv) 0 (mkState 0 0 [])) w) as Hl.
    fold (orchestrator argv) in Hl.
    destruct (run handle (orchestrator argv) w) as [[t r] w1] eqn:Hloop.
    cbn [trace_of outcome_of fst snd] in Hl. destruct Hl as [Hcount Hexam].
    destruct r as [st | e].
    + destruct (run_main_completed handle argv w t st w1 Hlen Hloop)
        as (t2 & -> & -> & _).
      rewrite app_nil_r. exact Hcount.
    + destruct (run_main_aborted handle argv w t e w1 Hlen Hloop) as (-> & _).
      exact Hcount.
Qed.

(** C10: with the four leading arguments and no file path, the run makes
    no network call and prints no mapping block; it prints no summary
    line either, and does not exit with status 0: the [print] of line 127
    raises [UnicodeEncodeError] and the status is 1. *)
Theorem no_file_paths_no_network argv w :
  (5 <= List.length argv)%nat -> skipn 5 argv = [] ->
  let r := run handle (main argv) w in
  count is_network_call (trace_of r) = 0
  /\ ~ In (printed mapping_start) (trace_of r)
  /\ ~ In (printed ([10] ++ bar_chart ++ lit " Results: 0 succeeded, 0 failed"))
          (trace_of r)
  /\ trace_of r = []
  /\ outcome_of r
     = Uncaught (Error (Exn UnicodeEncodeError (lit "surrogates not allowed")))
  /\ exit_status (outcome_of r) = 1.
Proof.
  intros Hlen Hnone r. subst r.
  destruct (run_main_no_files argv w Hlen Hnone) as [-> ->].
  repeat split; intros [].
Qed.

(** C2: with exactly four arguments after the program name the check of
    line 96 passes: no usage line is printed; nothing is printed at all,
    the run ends at line 127 with [UnicodeEncodeError] and status 1. *)
Theorem four_arguments_pass_the_check w :
  let argv := Scripted.argv [] in
  let r := run handle (main argv) w in
  List.length argv = 5%nat
  /\ ~ In (printed usage) (trace_of r)
  /\ trace_of r = []
  /\ outcome_of r
     = Uncaught (Error (Exn UnicodeEncodeError (lit "surrogates not allowed")))
  /\ exit_status (outcome_of r) = 1.
Proof.
  cbv zeta.
  destruct (run_main_no_files (Scripted.argv []) w) as [-> ->];
    [vm_compute; lia | reflexivity |].
  repeat split. intros [].
Qed.
End Orchestrator.

(** ** Runs in scripted environments *)

(** C1: a release lookup answered 200 without ['upload_url'] raises
    [KeyError] out of [upload_to_release]; the run ends there with status
    1 and the second input path is never examined. *)
Theorem lookup_without_upload_url_aborts_run :
  let argv := Scripted.argv ["a.txt"; "b.txt"]%string in
  let r := run (Scripted.handle Scripted.lookup_without_url) (main argv) tt in
  outcome_of r = Uncaught (Error (Exn KeyError (lit "upload_url")))
  /\ exit_status (outcome_of r) = 1
  /\ count is_examined (trace_of r) = 1
  /\ count is_network_call (trace_of r) = 1
  /\ List.length (trace_of r) = 2%nat.
Proof. vm_compute. repeat split. Qed.

(** C4: a run in which the only input file is uploaded and accepted: the
    loop completes with [fail_count = 0], and the exit status is 1, not 0:
    the [print] of line 127 raises [UnicodeEncodeError] before line 138 is
    reached. *)
Theorem exit_status_one_without_failure :
  let argv := Scripted.argv ["a.txt"]%string in
  let loop := run (Scripted.handle Scripted.all_fine) (orchestrator argv) tt in
  let r := run (Scripted.handle Scripted.all_fine) (main argv) tt in
  (5 <= List.length argv)%nat
  /\ outcome_of loop
     = Returned (mkState 1 0 [VDict [ (lit "index", VInt 0);
                                      (lit "original_name", VStr (lit "a.txt"));
                                      (lit "asset_id", VInt 42) ]])
  /\ trace_of r = trace_of loop
  /\ outcome_of r
     = Uncaught (Error (Exn UnicodeEncodeError (lit "surrogates not allowed")))
  /\ exit_status (outcome_of r) = 1
  /\ exit_status (outcome_of r) <> 0.
Proof. vm_compute. repeat split; [lia | discriminate]. Qed.

(** C7, as stated, fails: a file name with an escaped byte, as [sys.argv]
    delivers a name that is no UTF-8, is not percent-encoded at all:
    [quote] raises [UnicodeEncodeError], so nothing decodes back to the
    name. *)
Lemma quote_refuses_escaped_byte :
  quote Scripted.escaped_name
  = inl (Exn UnicodeEncodeError (lit "surrogates not allowed"))
  /\ ~ (exists encoded_filename,
          quote Scripted.escaped_name = inr encoded_filename
          /\ unquote encoded_filename = Some Scripted.escaped_name).
Proof.
  assert (H : quote Scripted.escaped_name
              = inl (Exn UnicodeEncodeError (lit "surrogates not allowed")))
    by (vm_compute; reflexivity).
  split; [exact H |].
  intros (encoded_filename & Hq & _). rewrite H in Hq. discriminate Hq.
Qed.

(** C3, as stated, fails: with two existing files the releases-by-tag
    endpoint is asked twice in one run. *)
Lemma release_looked_up_twice :
  let argv := Scripted.argv ["a.txt"; "b.txt"]%string in
  let t := trace_of (run (Scripted.handle Scripted.all_fine) (main argv) tt) in
  count is_existing t = 2
  /\ count (is_release_lookup (release_url (lit "o") (lit "r") (lit "v1"))) t = 2
  /\ count (is_release_lookup (release_url (lit "o") (lit "r") (lit "v1"))) t <> 1.
Proof. vm_compute. repeat split. discriminate. Qed.

(** ** The theorems at work *)

Lemma quote_roundtrip_witness :
  Forall is_scalar Scripted.hebrew_pdf
  /\ exists encoded_filename,
       quote Scripted.hebrew_pdf = inr encoded_filename
       /\ Forall (fun c => always_safe c = true \/ c = 37) encoded_filename
       /\ unquote encoded_filename = Some Scripted.hebrew_pdf.
Proof.
  split.
  - repeat constructor; unfold is_scalar; lia.
  - apply (quote_roundtrip Scripted.hebrew_pdf).
    repeat constructor; unfold is_scalar; lia.
Defined.

Lemma counters_add_up_witness :
  exists t st,
    run (Scripted.handle Scripted.all_fine)
        (main_loop (lit "tok") (lit "o") (lit "r") (lit "v1") 0
                   [lit "a.txt"; lit "missing.txt"; lit "c.pdf"] (mkState 0 0 [])) tt
    = (t, Returned st, tt)
    /\ success_count st = 2 /\ fail_count st = 1
    /\ success_count st + fail_count st = 3.
Proof.
  eexists. eexists. split; [vm_compute; reflexivity |].
  split; [reflexivity |]. split; [reflexivity |].
  refine (counters_add_up (Scripted.handle Scripted.all_fine)
            (lit "tok") (lit "o") (lit "r") (lit "v1")
            [lit "a.txt"; lit "missing.txt"; lit "c.pdf"] tt _ _ tt _).
  vm_compute. reflexivity.
Defined.


Lemma retried_then_returned_witness :
  let url := release_url (lit "o") (lit "r") (lit "v1") in
  let final := Scripted.release_found in
  In GET [HEAD; GET; PUT; DELETE; OPTIONS; TRACE; POST]
  /\ RetryPolicy.starts_with (lit "https://") url = true
  /\ Forall (fun r => RetryPolicy.retryable (status_code r))
            [Scripted.unavailable; Scripted.unavailable]
  /\ (List.length [Scripted.unavailable; Scripted.unavailable] < 5)%nat
  /\ status_code final = 200
  /\ snd (RetryPolicy.send (create_retry_session 5 1 None) GET url
            (map RetryPolicy.WireResponse [Scripted.unavailable; Scripted.unavailable]
             ++ [RetryPolicy.WireResponse final]))
     = inr final.
Proof.
  cbv zeta.
  assert (Hm : In GET [HEAD; GET; PUT; DELETE; OPTIONS; TRACE; POST])
    by (right; left; reflexivity).
  assert (Hr : Forall (fun r => RetryPolicy.retryable (status_code r))
                      [Scripted.unavailable; Scripted.unavailable])
    by (repeat constructor; unfold RetryPolicy.retryable; cbn; lia).
  split; [exact Hm |]. split; [reflexivity |]. split; [exact Hr |].
  split; [cbn; lia |]. split; [reflexivity |].
  apply (retried_then_returned GET (release_url (lit "o") (lit "r") (lit "v1"))
           [Scripted.unavailable; Scripted.unavailable] Scripted.release_found []).
  - exact Hm.
  - reflexivity.
  - exact Hr.
  - cbn. lia.
  - left. reflexivity.
Defined.

Lemma upload_without_id_succeeds_witness :
  let up := run (Scripted.handle Scripted.no_id)
                (upload_to_release (lit "tok") (lit "o") (lit "r") (lit "v1") (lit "a.txt")) tt in
  Scripted.handle Scripted.no_id (OsPathExists (lit "a.txt")) tt = (true, tt)
  /\ In Scripted.upload_a_txt (trace_of up)
  /\ accepted_without_id Scripted.upload_a_txt
  /\ outcome_of up = Returned (true, VStr (lit "a.txt"), VNone)
  /\ outcome_of (run (Scripted.handle Scripted.no_id)
                     (main_loop (lit "tok") (lit "o") (lit "r") (lit "v1") 0
                                [lit "a.txt"] (mkState 0 0 [])) tt)
     = Returned (mkState 1 0 [Scripted.record_a_txt]).
Proof.
  cbv zeta.
  assert (Hin : In Scripted.upload_a_txt
                   (trace_of (run (Scripted.handle Scripted.no_id)
                                (upload_to_release (lit "tok") (lit "o") (lit "r")
                                   (lit "v1") (lit "a.txt")) tt)))
    by (vm_compute; right; right; right; left; reflexivity).
  assert (Hacc : accepted_without_id Scripted.upload_a_txt).
  { unfold accepted_without_id, Scripted.upload_a_txt.
    do 5 eexists. exists []. split; [reflexivity |].
    split; [right; reflexivity |]. split; reflexivity. }
  split; [reflexivity |]. split; [exact Hin |]. split; [exact Hacc |].
  exact (upload_without_id_succeeds (Scripted.handle Scripted.no_id)
           (lit "tok") (lit "o") (lit "r") (lit "v1") (lit "a.txt") 0 [] (mkState 0 0 [])
           tt tt Scripted.upload_a_txt eq_refl Hin Hacc).
Defined.

Lemma no_file_paths_no_network_witness :
  let argv := Scripted.argv [] in
  let r := run (Scripted.handle Scripted.all_fine) (main argv) tt in
  (5 <= List.length argv)%nat
  /\ skipn 5 argv = []
  /\ count is_network_call (trace_of r) = 0
  /\ ~ In (printed mapping_start) (trace_of r)
  /\ ~ In (printed ([10] ++ bar_chart ++ lit " Results: 0 succeeded, 0 failed"))
          (trace_of r)
  /\ trace_of r = []
  /\ outcome_of r
     = Uncaught (Error (Exn UnicodeEncodeError (lit "surrogates not allowed")))
  /\ exit_status (outcome_of r) = 1.
Proof.
  cbv zeta. split; [vm_compute; lia |]. split; [reflexivity |].
  apply (no_file_paths_no_network (Scripted.handle Scripted.all_fine) (Scripted.argv []) tt).
  - vm_compute. lia.
  - reflexivity.
Defined.

(* ================================================================= *)
(** * Further properties *)

(** ** Properties of a trace that add up *)

Lemma collect_app {X : Type} (g : obs -> option X) t1 t2 :
  collect g (t1 ++ t2) = collect g t1 ++ collect g t2.
Proof.
  induction t1 as [| o t1 IH]; [reflexivity |].
  change ((o :: t1) ++ t2) with (o :: (t1 ++ t2)).
  cbn [collect]. rewrite IH. destruct (g o); reflexivity.
Qed.

Section Additive.

(** [Q] holds of the empty trace and of the concatenation of two traces
    of which it holds. *)
Variable Q : list obs -> Prop.
Hypothesis Q_nil : Q [].
Hypothesis Q_app : forall t1 t2, Q t1 -> Q t2 -> Q (t1 ++ t2).
Hypothesis Q_print : forall s x, Q [Obs (PrintLine s) x].
Hypothesis Q_missing : forall path, Q [Obs (OsPathExists path) false].

Variables token owner repo tag_name : pystr.
Hypothesis Q_upload :
  forall file_path,
    always (upload_to_release token owner repo tag_name file_path)
           (fun t _ => Q (Obs (OsPathExists file_path) true :: t)).

Lemma main_loop_additive file_paths :
  forall idx st,
    always (main_loop token owner repo tag_name idx file_paths st) (fun t _ => Q t).
Proof.
  induction file_paths as [| file_path rest IH]; intros idx st.
  - exact Q_nil.
  - apply always_main_loop_cons.
    + intros x. eapply always_mono; [| apply IH].
      intros t r Ht. cbv beta in Ht.
      apply (Q_app [Obs (OsPathExists file_path) false] (_ :: t)); [apply Q_missing |].
      apply (Q_app [Obs (PrintLine _) x] t); [apply Q_print | exact Ht].
    + eapply always_mono; [| apply Q_upload].
      intros t1 r1 Ht1.
      assert (Hnext : forall st1,
                 always (main_loop token owner repo tag_name (idx + 1) rest st1)
                   (fun t2 _ => Q (Obs (OsPathExists file_path) true :: t1 ++ t2))).
      { intros st1. eapply always_mono; [| apply IH].
        intros t2 r2 Ht2. cbv beta in Ht2.
        apply (Q_app (Obs (OsPathExists file_path) true :: t1) t2); assumption. }
      destruct r1 as [[[[|] original_name] asset_id] | e];
        [apply Hnext | apply Hnext | exact Ht1].
Qed.

Lemma report_additive st : always (report st) (fun t _ => Q t).
Proof.
  eapply always_mono; [| apply report_always].
  intros t r [-> _]. exact Q_nil.
Qed.

End Additive.

(** A property that adds up holds of the trace of every run of the script,
    if it holds of the lines printed, of a missing path, and of an existing
    path followed by the trace of its upload. *)
Lemma main_additive (Q : list obs -> Prop) argv :
  Q [] ->
  (forall t1 t2, Q t1 -> Q t2 -> Q (t1 ++ t2)) ->
  (forall s x, Q [Obs (PrintLine s) x]) ->
  (forall path, Q [Obs (OsPathExists path) false]) ->
  (forall file_path,
     always (upload_to_release (nth 1 argv []) (nth 2 argv []) (nth 3 argv [])
                               (nth 4 argv []) file_path)
            (fun t _ => Q (Obs (OsPathExists file_path) true :: t))) ->
  always (main argv) (fun t _ => Q t).
Proof.
  intros Q_nil Q_app Q_print Q_missing Q_upload. unfold main.
  destruct (_ <? 5).
  - print_step. unfold sys_exit. cbn [bind always]. intros x. apply Q_print.
  - cbv zeta. apply always_bind.
    eapply always_mono;
      [| apply (main_loop_additive Q Q_nil Q_app Q_print Q_missing _ _ _ _ Q_upload)].
    intros t [st | e] Ht; [| exact Ht].
    eapply always_mono; [| apply (report_additive Q Q_nil)].
    intros t2 r2 Ht2. cbv beta in Ht2. apply Q_app; assumption.
Qed.

(** ** Requests and files along a run *)

Lemma upload_to_release_network token owner repo tag_name file_path :
  always (upload_to_release token owner repo tag_name file_path)
    (fun t _ =>
       count is_network_call t <= 2 /\ count is_upload t <= 1
       /\ count is_existing t = 0).
Proof.
  upload_cases.
  all: repeat split; vm_compute; congruence.
Qed.

Lemma upload_to_release_closes token owner repo tag_name file_path :
  always (upload_to_release token owner repo tag_name file_path)
    (fun t _ => collect opened_file t = collect closed_file t).
Proof.
  upload_cases.
  all: reflexivity.
Qed.

Lemma octet_stream_not_empty : lit "application/octet-stream" <> [].
Proof. vm_compute. discriminate. Qed.

Lemma upload_to_release_requests token owner repo tag_name file_path :
  always (upload_to_release token owner repo tag_name file_path)
    (fun t _ => Forall (request_shape token owner repo tag_name) t).
Proof.
  upload_cases.
  all: repeat apply Forall_cons; try apply Forall_nil.
  all: unfold request_shape, lookup_headers, upload_headers; cbn [obs_event].
  all: try exact I.
  all: try (split; [reflexivity | repeat split; reflexivity]).
  all: split; [reflexivity |]; eexists; eexists;
    (split; [reflexivity | split; [| reflexivity]]).
  all: first [ exact octet_stream_not_empty | discriminate ].
Qed.

Lemma main_network argv :
  always (main argv)
    (fun t _ => count is_network_call t <= 2 * count is_existing t
                /\ count is_upload t <= count is_existing t).
Proof.
  apply (main_additive
           (fun t => count is_network_call t <= 2 * count is_existing t
                     /\ count is_upload t <= count is_existing t)).
  - split; reflexivity.
  - intros t1 t2 [H1 H2] [H3 H4]. rewrite !count_app. lia.
  - intros s x. split; vm_compute; congruence.
  - intros path. split; vm_compute; congruence.
  - intros file_path. eapply always_mono; [| apply upload_to_release_network].
    intros t r (H1 & H2 & H3). cbv beta. rewrite !count_cons.
    cbn [is_network_call is_upload is_existing obs_event]. lia.
Qed.

Section Runs.
Context {W : Type} (handle : forall e : event, W -> answer e * W).

(** X2: a run talks to the server only for input paths that exist: at
    most one lookup and one upload for each, so at most twice as many
    requests as existing paths and at most as many uploads. *)
Theorem network_calls_only_for_existing_files argv w :
  let t := trace_of (run handle (main argv) w) in
  count is_network_call t <= 2 * count is_existing t
  /\ count is_upload t <= count is_existing t.
Proof. exact (always_run handle (main argv) _ (main_network argv) w). Qed.

(** X3: every file that [open] returned is closed again, in every run,
    also when the upload raises. *)
Theorem opened_files_are_closed argv w :
  let t := trace_of (run handle (main argv) w) in
  collect opened_file t = collect closed_file t.
Proof.
  apply (always_run handle (main argv)
           (fun t _ => collect opened_file t = collect closed_file t)).
  apply (main_additive (fun t => collect opened_file t = collect closed_file t)).
  - reflexivity.
  - intros t1 t2 H1 H2. rewrite !collect_app, H1, H2. reflexivity.
  - reflexivity.
  - reflexivity.
  - intros file_path. eapply always_mono; [| apply upload_to_release_closes].
    intros t r H. exact H.
Qed.

(** X4: every request of a run goes through a session made by
    [create_retry_session()] and carries the token; it is a GET of the
    releases-by-tag URL without body, or a POST of a file with a content
    type that is not empty; no other method is used. *)
Theorem requests_have_the_shape argv w :
  Forall (request_shape (nth 1 argv []) (nth 2 argv []) (nth 3 argv []) (nth 4 argv []))
         (trace_of (run handle (main argv) w)).
Proof.
  apply (always_run handle (main argv)
           (fun t _ => Forall (request_shape (nth 1 argv []) (nth 2 argv [])
                                 (nth 3 argv []) (nth 4 argv [])) t)).
  apply (main_additive
           (Forall (request_shape (nth 1 argv []) (nth 2 argv [])
                      (nth 3 argv []) (nth 4 argv [])))).
  - constructor.
  - intros t1 t2 H1 H2. apply Forall_app. split; assumption.
  - intros s x. constructor; [exact I | constructor].
  - intros path. constructor; [exact I | constructor].
  - intros file_path. eapply always_mono; [| apply upload_to_release_requests].
    intros t r H. constructor; [exact I | exact H].
Qed.

End Runs.

(** ** What one call of upload_to_release does *)

Lemma obs_request_inv_full s m url h d a s' m' url' h' d' a' :
  Obs (SessionRequest s m url h d) a = Obs (SessionRequest s' m' url' h' d') a' ->
  s = s' /\ m = m' /\ url = url' /\ h = h' /\ d = d' /\ a = a'.
Proof.
  intros H. destruct (obs_request_inv _ _ _ _ _ _ _ _ _ _ _ _ H) as [_ Ha].
  apply (f_equal obs_event) in H. cbn in H. injection H as -> -> -> -> ->.
  repeat split. exact Ha.
Qed.

Lemma obs_open_inv p r p' r' :
  Obs (OpenRb p) r = Obs (OpenRb p') r' -> p = p' /\ r = r'.
Proof.
  intros H. split.
  - apply (f_equal obs_event) in H. cbn in H. congruence.
  - apply (f_equal (fun o =>
             match o with
             | Obs e x =>
                 match e return answer e -> option (error + file) with
                 | OpenRb _ => fun r => Some r
                 | _ => fun _ => None
                 end x
             end)) in H.
    cbn in H. congruence.
Qed.

(** The answers of the console are all the same. *)
Ltac unit_answers :=
  repeat match goal with
  | x : unit |- _ => destruct x
  | x : answer (PrintLine _) |- _ => destruct x
  | x : answer (CloseFile _) |- _ => destruct x
  end.

(** Split a hypothesis [In o t] for an explicit trace [t]. *)
Ltac in_cases H :=
  cbn [In] in H;
  repeat match type of H with
  | _ \/ _ => destruct H as [H | H]
  end;
  try (exfalso; exact H).

(** Read a test that the run has taken. *)
Ltac read_tests :=
  repeat match goal with
  | H : negb _ = true |- _ => apply negb_true_iff in H
  | H : negb _ = false |- _ => apply negb_false_iff in H
  | H : _ || _ = true |- _ => apply orb_true_iff in H; destruct H as [H | H]
  | H : _ || _ = false |- _ => apply orb_false_iff in H; destruct H
  | H : (_ =? _) = true |- _ => apply Z.eqb_eq in H
  | H : (_ =? _) = false |- _ => apply Z.eqb_neq in H
  end.

#[local] Arguments lookup_failure_reported : simpl never.

Lemma upload_to_release_lookup_failure token owner repo tag_name file_path :
  always (upload_to_release token owner repo tag_name file_path)
         (lookup_failure_reported token owner repo tag_name).
Proof.
  upload_cases.
  all: unfold lookup_failure_reported; intros session url hdrs data response Hin Hst.
  all: unit_answers.
  all: in_cases Hin.
  all: try no_such_obs.
  all: apply obs_request_inv_full in Hin;
    destruct Hin as (_ & _ & _ & _ & _ & Hresp); injection Hresp as ->.
  all: read_tests; try congruence.
  all: split; reflexivity.
Qed.

#[local] Arguments transport_error_reported : simpl never.
#[local] Arguments upload_rejection_reported : simpl never.
#[local] Arguments open_failure_raised : simpl never.
#[local] Arguments upload_names_file : simpl never.

Lemma upload_to_release_transport_error token owner repo tag_name file_path :
  always (upload_to_release token owner repo tag_name file_path)
         (transport_error_reported file_path).
Proof.
  upload_cases.
  all: unfold transport_error_reported; intros session m url hdrs data err' Hin Hre.
  all: unit_answers.
  all: in_cases Hin.
  all: try no_such_obs.
  all: apply obs_request_inv_full in Hin;
    destruct Hin as (_ & <- & _ & _ & _ & Hresp); injection Hresp as <-.
  all: try (cbn in Hre; discriminate Hre).
  all: split; reflexivity.
Qed.

Lemma upload_to_release_rejection token owner repo tag_name file_path :
  always (upload_to_release token owner repo tag_name file_path)
         (upload_rejection_reported file_path).
Proof.
  upload_cases.
  all: unfold upload_rejection_reported;
    intros session url hdrs data response Hin Hst Hst'.
  all: unit_answers.
  all: in_cases Hin.
  all: try no_such_obs.
  all: apply obs_request_inv_full in Hin;
    destruct Hin as (_ & _ & _ & _ & _ & Hresp); injection Hresp as ->.
  all: read_tests; try (intuition congruence).
  all: split; reflexivity.
Qed.

Ltac no_such_open :=
  match goal with
  | H : Obs _ _ = Obs _ _ |- _ =>
      first [ apply (f_equal obs_event) in H; discriminate H
            | apply obs_open_inv in H; destruct H as [_ H]; discriminate H ]
  end.

Lemma upload_to_release_open_failure token owner repo tag_name file_path :
  always (upload_to_release token owner repo tag_name file_path)
         (open_failure_raised file_path).
Proof.
  upload_cases.
  all: unfold open_failure_raised; intros path err' Hin Hre.
  all: unit_answers.
  all: in_cases Hin.
  all: try no_such_open.
  all: apply obs_open_inv in Hin; destruct Hin as [<- Hresp]; injection Hresp as <-.
  all: try (cbn in Hre; discriminate Hre).
  all: repeat split; reflexivity.
Qed.

Lemma split_head_no_sep sep s : ~ In sep (split_head sep s).
Proof.
  induction s as [| c s IH]; [intros [] |].
  unfold split_head; fold split_head.
  destruct (Z.eqb_spec c sep) as [| Hne]; [intros [] |].
  intros [Hc | Hin]; [congruence | exact (IH Hin)].
Qed.

Lemma upload_to_release_names_file token owner repo tag_name file_path :
  always (upload_to_release token owner repo tag_name file_path)
         (upload_names_file file_path).
Proof.
  upload_cases.
  all: unfold upload_names_file; intros session url hdrs data a Hin.
  all: unit_answers.
  all: in_cases Hin.
  all: try no_such_obs.
  all: apply obs_request_inv_full in Hin;
    destruct Hin as (_ & _ & <- & _ & <- & _).
  all: match goal with
       | Hj : json_body ?r = Some (VDict ?kv),
         Hu : dict_lookup (lit "upload_url") ?kv = Some (VStr ?template),
         He : utf8_encode _ = Some ?bs |- _ =>
           exists (Obs (SessionRequest (create_retry_session 5 1 None) GET
                          (release_url owner repo tag_name)
                          [ (lit "Authorization", lit "token " ++ token);
                            (lit "Accept", lit "application/vnd.github.v3+json") ]
                          None) (inr r)),
                  r, template, (quote_from_bytes bs);
           eexists;
           split; [left; reflexivity |];
           split; [reflexivity |];
           split; [rewrite Hj; unfold getitem; cbn; rewrite Hu; reflexivity |];
           split; [reflexivity |];
           split; [apply split_head_no_sep |];
           split; [apply unquote_quote; unfold quote; rewrite He; reflexivity |];
           split; [reflexivity |];
           right; right; left; reflexivity
       end.
Qed.

(** ** The loop and the script, again *)

#[local] Arguments examined_in_order : simpl never.
#[local] Arguments nothing_uploaded : simpl never.

Lemma upload_to_release_examines_nothing token owner repo tag_name file_path :
  always (upload_to_release token owner repo tag_name file_path)
         (fun t _ => collect examined_path t = []).
Proof.
  upload_cases.
  all: reflexivity.
Qed.

Lemma main_loop_examined token owner repo tag_name file_paths :
  forall idx st,
    always (main_loop token owner repo tag_name idx file_paths st)
           (examined_in_order file_paths).
Proof.
  induction file_paths as [| file_path rest IH]; intros idx st.
  - exists []. split; reflexivity.
  - assert (Hnext : forall t1 st1,
               collect examined_path t1 = [] ->
               always (main_loop token owner repo tag_name (idx + 1) rest st1)
                 (fun t2 r2 =>
                    examined_in_order (file_path :: rest)
                      (Obs (OsPathExists file_path) true :: t1 ++ t2) r2)).
    { intros t1 st1 Ht1. eapply always_mono; [| apply IH].
      intros t2 r2 (rest' & Hrest & Hr). exists rest'. split; [| exact Hr].
      change (Obs (OsPathExists file_path) true :: t1 ++ t2)
        with ([Obs (OsPathExists file_path) true] ++ t1 ++ t2).
      rewrite !collect_app, Ht1, Hrest. reflexivity. }
    apply always_main_loop_cons.
    + intros x. eapply always_mono; [| apply IH].
      intros t r (rest' & Hrest & Hr). exists rest'. split; [| exact Hr].
      rewrite Hrest. reflexivity.
    + eapply always_mono; [| apply upload_to_release_examines_nothing].
      intros t1 r1 Ht1.
      destruct r1 as [[[[|] original_name] asset_id] | e];
        [apply Hnext; exact Ht1 | apply Hnext; exact Ht1 |].
      exists rest. split; [| exact I].
      change (Obs (OsPathExists file_path) true :: t1)
        with ([Obs (OsPathExists file_path) true] ++ t1).
      rewrite collect_app, Ht1. reflexivity.
Qed.

(** An exception that leaves the loop is no [RequestException]. *)
Lemma main_loop_no_request_exception token owner repo tag_name file_paths :
  forall idx st,
    always (main_loop token owner repo tag_name idx file_paths st)
      (fun _ r =>
         match r with
         | Returned _ => True
         | Uncaught e => is_RequestException e = false
         end).
Proof.
  induction file_paths as [| file_path rest IH]; intros idx st.
  - exact I.
  - apply always_main_loop_cons.
    + intros x. eapply always_mono; [| apply IH]. auto.
    + eapply always_mono; [| apply upload_to_release_shape].
      intros t1 [[[[|] original_name] asset_id] | e] H.
      * eapply always_mono; [| apply IH]. auto.
      * eapply always_mono; [| apply IH]. auto.
      * destruct H as (err & _ & Hre). exact Hre.
Qed.

Lemma main_no_request_exception argv :
  always (main argv)
    (fun _ r =>
       match r with
       | Returned _ => True
       | Uncaught e => is_RequestException e = false
       end).
Proof.
  unfold main. destruct (_ <? 5).
  - print_step. unfold sys_exit. cbn [bind always]. intros x. reflexivity.
  - cbv zeta. apply always_bind.
    eapply always_mono; [| apply main_loop_no_request_exception].
    intros t [st | e] H; [| exact H].
    eapply always_mono; [| apply report_always].
    intros t2 r2 [_ ->]. reflexivity.
Qed.

(** The exit status of the script is 1: from [sys.exit(1)] of line 98, or
    from an exception that leaves the loop or the [print] of line 127. *)
Lemma main_exit_status argv :
  always (main argv) (fun _ r => exit_status r = 1).
Proof.
  unfold main. destruct (_ <? 5).
  - print_step. unfold sys_exit. cbn [bind always]. intros x. reflexivity.
  - cbv zeta. apply always_bind.
    eapply always_mono; [| apply main_loop_uncaught].
    intros t [st | e] H.
    + eapply always_mono; [| apply report_always].
      intros t2 r2 [_ ->]. reflexivity.
    + destruct H as [err ->]. reflexivity.
Qed.

(** The lines of the loop start with a dingbat. *)
Lemma upload_to_release_prints token owner repo tag_name file_path :
  always (upload_to_release token owner repo tag_name file_path)
         (fun t _ => Forall prints_progress t).
Proof.
  upload_cases.
  all: repeat apply Forall_cons; try apply Forall_nil.
  all: first [ exact I | vm_compute; reflexivity ].
Qed.

Lemma main_loop_prints token owner repo tag_name file_paths :
  forall idx st,
    always (main_loop token owner repo tag_name idx file_paths st)
           (fun t _ => Forall prints_progress t).
Proof.
  induction file_paths as [| file_path rest IH]; intros idx st.
  - constructor.
  - apply always_main_loop_cons.
    + intros x. eapply always_mono; [| apply IH].
      intros t r Ht. cbv beta in Ht.
      constructor; [exact I |]. constructor; [vm_compute; reflexivity | exact Ht].
    + eapply always_mono; [| apply upload_to_release_prints].
      intros t1 r1 Ht1.
      assert (Hnext : forall st1,
                 always (main_loop token owner repo tag_name (idx + 1) rest st1)
                   (fun t2 _ => Forall prints_progress
                                  (Obs (OsPathExists file_path) true :: t1 ++ t2))).
      { intros st1. eapply always_mono; [| apply IH].
        intros t2 r2 Ht2. cbv beta in Ht2.
        constructor; [exact I |]. apply Forall_app. split; assumption. }
      destruct r1 as [[[[|] original_name] asset_id] | e];
        [apply Hnext | apply Hnext |].
      constructor; [exact I | exact Ht1].
Qed.

(** *** Base64 text *)

Lemma b64_char_is_b64_char i : 0 <= i < 64 -> is_b64_char (b64_char i).
Proof.
  intros Hi. unfold is_b64_char, b64_char. case_tests; lia.
Qed.

Lemma b64encode_text bs :
  Forall is_byte bs ->
  Forall is_b64_char (b64encode bs)
  /\ exists n, List.length (b64encode bs) = (4 * n)%nat.
Proof.
  unfold is_byte.
  assert (Hpad : is_b64_char 61) by (unfold is_b64_char; lia).
  induction bs as [| a | a b | a b c r IH] using list_ind3; intros Hbs.
  - split; [constructor | exists 0%nat; reflexivity].
  - inversion_clear Hbs as [| ? ? Ha _].
    unfold b64encode.
    split; [| exists 1%nat; reflexivity].
    repeat apply Forall_cons; try apply Forall_nil; try exact Hpad;
      apply b64_char_is_b64_char; dlia.
  - inversion_clear Hbs as [| ? ? Ha Hbs']. inversion_clear Hbs' as [| ? ? Hb _].
    unfold b64encode.
    split; [| exists 1%nat; reflexivity].
    repeat apply Forall_cons; try apply Forall_nil; try exact Hpad;
      apply b64_char_is_b64_char; dlia.
  - inversion_clear Hbs as [| ? ? Ha Hbs']. inversion_clear Hbs' as [| ? ? Hb Hbs].
    inversion_clear Hbs as [| ? ? Hc Hr].
    destruct (IH Hr) as [Hall [n Hn]].
    change (b64encode (a :: b :: c :: r))
      with (b64_char (a / 4) :: b64_char (a mod 4 * 16 + b / 16)
            :: b64_char (b mod 16 * 4 + c / 64) :: b64_char (c mod 64)
            :: b64encode r).
    split.
    + repeat apply Forall_cons; try exact Hall; apply b64_char_is_b64_char; dlia.
    + exists (S n). cbn [List.length]. rewrite Hn. lia.
Qed.

(** X14: the encoding of the mapping (lines 133-134) never raises, whatever
    the records hold, and gives Base64 text: characters of the Base64
    alphabet and padding only, in groups of four. *)
Theorem mapping_payload_is_base64_text filename_mapping :
  exists payload n,
    encode_mapping filename_mapping = Ret payload
    /\ Forall is_b64_char payload
    /\ List.length payload = (4 * n)%nat.
Proof.
  destruct (encode_mapping_ret filename_mapping) as (bs & Hbs & Hret).
  destruct (b64encode_text bs (utf8_encode_bytes _ _ Hbs)) as [Hall [n Hn]].
  exists (b64encode bs), n. repeat split; assumption.
Qed.

Lemma nothing_uploaded_upload token owner repo tag_name file_path :
  always (upload_to_release token owner repo tag_name file_path)
         (fun t _ => nothing_uploaded (Obs (OsPathExists file_path) true :: t)).
Proof.
  upload_cases.
  all: unfold nothing_uploaded; intros Hall.
  all: apply Forall_inv_tail, Forall_inv in Hall; cbn in Hall.
  all: read_tests; try congruence.
  all: repeat split; reflexivity.
Qed.

Lemma main_nothing_uploaded argv :
  always (main argv) (fun t _ => nothing_uploaded t).
Proof.
  apply (main_additive nothing_uploaded).
  - intros _. repeat split; reflexivity.
  - intros t1 t2 H1 H2 Hall. apply Forall_app in Hall. destruct Hall as [Ha1 Ha2].
    destruct (H1 Ha1) as (A1 & B1 & C1). destruct (H2 Ha2) as (A2 & B2 & C2).
    rewrite count_app, collect_app, uploaded_ids_app, A1, A2, B1, B2, C1, C2.
    repeat split; reflexivity.
  - intros s x _. repeat split; reflexivity.
  - intros path _. repeat split; reflexivity.
  - apply nothing_uploaded_upload.
Qed.

Section MoreRuns.
Context {W : Type} (handle : forall e : event, W -> answer e * W).

Lemma run_main_loop_mapping token owner repo tag_name idx file_paths st w t st' w1 :
  run handle (main_loop token owner repo tag_name idx file_paths st) w
  = (t, Returned st', w1) ->
  mapping_grows idx file_paths st t (Returned st').
Proof.
  intros Hrun.
  pose proof (always_run handle _ _
                (main_loop_mapping token owner repo tag_name file_paths idx st) w) as H.
  rewrite Hrun in H. exact H.
Qed.

(** X1: with fewer than four arguments after the program name, the script
    prints the usage line and exits with status 1, and does nothing else. *)
Theorem too_few_arguments_print_usage argv w :
  (List.length argv < 5)%nat ->
  trace_of (run handle (main argv) w) = [printed usage]
  /\ exit_status (outcome_of (run handle (main argv) w)) = 1.
Proof.
  intros Hlen. destruct (run_main_usage handle argv w Hlen) as [-> ->].
  split; reflexivity.
Qed.

(** X5: when the release lookup answers another status than 200,
    [upload_to_release] prints the line with the status and the body and
    returns [(False, None, None)]: the file is not opened and nothing is
    uploaded. *)
Theorem lookup_failure_is_reported token owner repo tag_name file_path w
    session url hdrs data response :
  let up := run handle (upload_to_release token owner repo tag_name file_path) w in
  In (Obs (SessionRequest session GET url hdrs data) (inr response)) (trace_of up) ->
  status_code response <> 200 ->
  outcome_of up = Returned (false, VNone, VNone)
  /\ trace_of up
     = [ Obs (SessionRequest (create_retry_session 5 1 None) GET
                (release_url owner repo tag_name) (lookup_headers token) None)
             (inr response);
         printed (lookup_failed_line response) ].
Proof.
  exact (always_run handle _ _
           (upload_to_release_lookup_failure token owner repo tag_name file_path) w
           session url hdrs data response).
Qed.

(** X6: when a request raises a [RequestException], [upload_to_release]
    returns [(False, None, None)] and its last line is the exception line;
    the path in it is the one given when the lookup raised, and
    [str(Path(file_path))] when the upload raised. *)
Theorem transport_error_is_reported token owner repo tag_name file_path w
    session m url hdrs data err :
  let up := run handle (upload_to_release token owner repo tag_name file_path) w in
  In (Obs (SessionRequest session m url hdrs data) (inl err)) (trace_of up) ->
  is_RequestException (Error err) = true ->
  outcome_of up = Returned (false, VNone, VNone)
  /\ last (trace_of up) (printed [])
     = printed (exception_line
                  (match m with
                   | GET => file_path
                   | _ => Path.str file_path
                   end) err).
Proof.
  exact (always_run handle _ _
           (upload_to_release_transport_error token owner repo tag_name file_path) w
           session m url hdrs data err).
Qed.

(** X7: when the upload answers another status than 200 and 201,
    [upload_to_release] returns [(False, None, None)] and its last line
    names the file, the status and the body. *)
Theorem upload_rejection_is_reported token owner repo tag_name file_path w
    session url hdrs data response :
  let up := run handle (upload_to_release token owner repo tag_name file_path) w in
  In (Obs (SessionRequest session POST url hdrs data) (inr response)) (trace_of up) ->
  status_code response <> 200 -> status_code response <> 201 ->
  outcome_of up = Returned (false, VNone, VNone)
  /\ last (trace_of up) (printed [])
     = printed (upload_failed_line (Path.name file_path) response).
Proof.
  exact (always_run handle _ _
           (upload_to_release_rejection token owner repo tag_name file_path) w
           session url hdrs data response).
Qed.

(** X8: when [open] raises an exception that is no [RequestException]
    (an [OSError]), it leaves [upload_to_release] uncaught and nothing is
    uploaded. *)
Theorem open_failure_is_raised token owner repo tag_name file_path w path err :
  let up := run handle (upload_to_release token owner repo tag_name file_path) w in
  In (Obs (OpenRb path) (inl err)) (trace_of up) ->
  is_RequestException (Error err) = false ->
  outcome_of up = Uncaught (Error err)
  /\ path = Path.str file_path
  /\ count is_upload (trace_of up) = 0.
Proof.
  exact (always_run handle _ _
           (upload_to_release_open_failure token owner repo tag_name file_path) w
           path err).
Qed.

(** X9: the upload request of a call goes to the upload URL that the
    lookup of the same call returned, cut at its first brace, with a
    [name] parameter that percent-decodes to the base name of the path,
    and its body is the file opened at that path. *)
Theorem upload_names_the_file token owner repo tag_name file_path w
    session url hdrs data a :
  let up := run handle (upload_to_release token owner repo tag_name file_path) w in
  In (Obs (SessionRequest session POST url hdrs data) a) (trace_of up) ->
  exists lookup release template encoded_filename f,
    In lookup (trace_of up)
    /\ request_answer GET lookup = Some (inr release)
    /\ option_map (fun v => getitem v (lit "upload_url")) (json_body release)
       = Some (inr (VStr template))
    /\ url = split_head 123 template ++ lit "?name=" ++ encoded_filename
    /\ ~ In 123 (split_head 123 template)
    /\ unquote encoded_filename = Some (Path.name file_path)
    /\ data = Some f
    /\ In (Obs (OpenRb (Path.str file_path)) (inr f)) (trace_of up).
Proof.
  exact (always_run handle _ _
           (upload_to_release_names_file token owner repo tag_name file_path) w
           session url hdrs data a).
Qed.

(** X10: no run of the script ends by a [RequestException]: transport
    errors and unreadable answers are turned into failures of their file. *)
Theorem request_exceptions_never_end_the_run argv w :
  match outcome_of (run handle (main argv) w) with
  | Returned _ => True
  | Uncaught e => is_RequestException e = false
  end.
Proof. exact (always_run handle (main argv) _ (main_no_request_exception argv) w). Qed.

(** X11: the loop asks [os.path.exists] about the input paths one by one
    in their order, each at most once, and about all of them when it
    completes. *)
Theorem paths_examined_in_order token owner repo tag_name idx file_paths st w :
  let loop := run handle (main_loop token owner repo tag_name idx file_paths st) w in
  exists rest,
    file_paths = collect examined_path (trace_of loop) ++ rest
    /\ match outcome_of loop with
       | Returned _ => rest = []
       | Uncaught _ => True
       end.
Proof.
  exact (always_run handle _ _
           (main_loop_examined token owner repo tag_name file_paths idx st) w).
Qed.

(** X12: when the loop completes, [success_count] is the number of uploads
    that the server answered 200 or 201 with a JSON object, and
    [fail_count] the number of the other input paths. *)
Theorem success_count_counts_accepted_uploads token owner repo tag_name file_paths
    w t st w1 :
  run handle (main_loop token owner repo tag_name 0 file_paths (mkState 0 0 [])) w
  = (t, Returned st, w1) ->
  success_count st = Z.of_nat (List.length (uploaded_ids t))
  /\ fail_count st
     = Z.of_nat (List.length file_paths) - Z.of_nat (List.length (uploaded_ids t)).
Proof.
  intros Hrun.
  pose proof (run_main_loop_counts handle _ _ _ _ _ _ _ _ _ _ _ Hrun) as Hsum.
  destruct (run_main_loop_mapping _ _ _ _ _ _ _ _ _ _ _ Hrun)
    as (records & _ & Hn & Hids & _).
  cbn [success_count fail_count] in Hsum, Hn.
  rewrite <- Hids, length_map. lia.
Qed.

(** X13: after a completed loop the script prints nothing more: the
    [print] of the summary (line 127) raises [UnicodeEncodeError], so the
    trace of the run is the trace of the loop, neither the summary line
    nor a line of the mapping block is in it, and the status is 1. *)
Theorem nothing_is_printed_after_the_loop argv w t st w1 :
  (5 <= List.length argv)%nat ->
  run handle (orchestrator argv) w = (t, Returned st, w1) ->
  let r := run handle (main argv) w in
  trace_of r = t
  /\ outcome_of r
     = Uncaught (Error (Exn UnicodeEncodeError (lit "surrogates not allowed")))
  /\ exit_status (outcome_of r) = 1
  /\ ~ In (printed (results_line st)) (trace_of r)
  /\ ~ In (printed mapping_start) (trace_of r)
  /\ ~ In (printed mapping_end) (trace_of r).
Proof.
  intros Hlen Hloop r. subst r.
  destruct (run_main_completed handle argv w t st w1 Hlen Hloop) as (t2 & Ht & -> & Hr).
  rewrite app_nil_r in Ht. rewrite Ht, Hr.
  pose proof (always_run handle _ _
                (main_loop_prints (nth 1 argv []) (nth 2 argv []) (nth 3 argv [])
                   (nth 4 argv []) (skipn 5 argv) 0 (mkState 0 0 [])) w) as Hp.
  fold (orchestrator argv) in Hp. rewrite Hloop in Hp.
  cbn [trace_of fst] in Hp. rewrite Forall_forall in Hp.
  split; [reflexivity |]. split; [reflexivity |]. split; [reflexivity |].
  repeat split; intros Hin; apply Hp in Hin; vm_compute in Hin; discriminate Hin.
Qed.

(** X15: every run of the script ends with status 1: status 0 (line 138)
    is never reached. *)
Theorem every_run_exits_with_status_one argv w :
  exit_status (outcome_of (run handle (main argv) w)) = 1.
Proof. exact (always_run handle (main argv) _ (main_exit_status argv) w). Qed.

(** X16: when no release lookup of a run answers 200 (the tag does not
    exist, the server is unreachable), the run opens no file and uploads
    nothing, and its status is 1 as soon as an input path exists. *)
Theorem failed_lookups_upload_nothing argv w :
  (5 <= List.length argv)%nat ->
  let t := trace_of (run handle (main argv) w) in
  Forall lookup_not_ok t ->
  count is_upload t = 0
  /\ collect opened_file t = []
  /\ uploaded_ids t = []
  /\ (0 < count is_existing t ->
      exit_status (outcome_of (run handle (main argv) w)) = 1).
Proof.
  intros Hlen t Hall. subst t.
  destruct (always_run handle (main argv) _ (main_nothing_uploaded argv) w Hall)
    as (Hup & Hopen & Hids).
  split; [exact Hup |]. split; [exact Hopen |]. split; [exact Hids |].
  intros _. exact (always_run handle (main argv) _ (main_exit_status argv) w).
Qed.

End MoreRuns.

(** ** The further theorems at work *)

Lemma too_few_arguments_print_usage_witness :
  let argv := [lit "upload_to_release.py"; lit "tok"] in
  (List.length argv < 5)%nat
  /\ trace_of (run (Scripted.handle Scripted.all_fine) (main argv) tt) = [printed usage]
  /\ exit_status (outcome_of (run (Scripted.handle Scripted.all_fine) (main argv) tt)) = 1.
Proof.
  cbv zeta. split; [vm_compute; lia |].
  apply (too_few_arguments_print_usage (Scripted.handle Scripted.all_fine)).
  vm_compute. lia.
Defined.

Lemma lookup_failure_is_reported_witness :
  let up := run (Scripted.handle Scenario.no_such_tag)
                (upload_to_release (lit "tok") (lit "o") (lit "r") (lit "v1") (lit "a.txt")) tt in
  let lookup := Obs (SessionRequest (create_retry_session 5 1 None) GET
                       (release_url (lit "o") (lit "r") (lit "v1"))
                       (lookup_headers (lit "tok")) None)
                    (inr Scenario.not_found) in
  In lookup (trace_of up)
  /\ status_code Scenario.not_found <> 200
  /\ outcome_of up = Returned (false, VNone, VNone)
  /\ trace_of up = [lookup; printed (lookup_failed_line Scenario.not_found)].
Proof.
  cbv zeta.
  assert (Hin : In (Obs (SessionRequest (create_retry_session 5 1 None) GET
                          (release_url (lit "o") (lit "r") (lit "v1"))
                          (lookup_headers (lit "tok")) None)
                       (inr Scenario.not_found))
                   (trace_of (run (Scripted.handle Scenario.no_such_tag)
                                (upload_to_release (lit "tok") (lit "o") (lit "r")
                                   (lit "v1") (lit "a.txt")) tt)))
    by (vm_compute; left; reflexivity).
  assert (Hst : status_code Scenario.not_found <> 200) by (vm_compute; discriminate).
  split; [exact Hin |]. split; [exact Hst |].
  exact (lookup_failure_is_reported (Scripted.handle Scenario.no_such_tag)
           (lit "tok") (lit "o") (lit "r") (lit "v1") (lit "a.txt") tt
           _ _ _ _ _ Hin Hst).
Defined.

Lemma transport_error_is_reported_witness :
  let up := run (Scripted.handle Scenario.offline)
                (upload_to_release (lit "tok") (lit "o") (lit "r") (lit "v1")
                   (lit "dir//a.txt")) tt in
  let lookup := Obs (SessionRequest (create_retry_session 5 1 None) GET
                       (release_url (lit "o") (lit "r") (lit "v1"))
                       (lookup_headers (lit "tok")) None)
                    (inl Scenario.connection_error) in
  In lookup (trace_of up)
  /\ is_RequestException (Error Scenario.connection_error) = true
  /\ outcome_of up = Returned (false, VNone, VNone)
  /\ last (trace_of up) (printed [])
     = printed (exception_line (lit "dir//a.txt") Scenario.connection_error).
Proof.
  cbv zeta.
  assert (Hin : In (Obs (SessionRequest (create_retry_session 5 1 None) GET
                          (release_url (lit "o") (lit "r") (lit "v1"))
                          (lookup_headers (lit "tok")) None)
                       (inl Scenario.connection_error))
                   (trace_of (run (Scripted.handle Scenario.offline)
                                (upload_to_release (lit "tok") (lit "o") (lit "r")
                                   (lit "v1") (lit "dir//a.txt")) tt)))
    by (vm_compute; left; reflexivity).
  split; [exact Hin |]. split; [reflexivity |].
  exact (transport_error_is_reported (Scripted.handle Scenario.offline)
           (lit "tok") (lit "o") (lit "r") (lit "v1") (lit "dir//a.txt") tt
           _ GET _ _ _ _ Hin eq_refl).
Defined.

Lemma upload_rejection_is_reported_witness :
  let up := run (Scripted.handle Scenario.uploads_refused)
                (upload_to_release (lit "tok") (lit "o") (lit "r") (lit "v1") (lit "a.txt")) tt in
  let upload := Obs (SessionRequest (create_retry_session 5 1 None) POST
                       (lit "https://uploads.github.com/repos/o/r/releases/1/assets?name=a.txt")
                       (upload_headers (lit "tok") (lit "application/octet-stream"))
                       (Some 3))
                    (inr Scenario.unprocessable) in
  In upload (trace_of up)
  /\ status_code Scenario.unprocessable <> 200
  /\ status_code Scenario.unprocessable <> 201
  /\ outcome_of up = Returned (false, VNone, VNone)
  /\ last (trace_of up) (printed [])
     = printed (upload_failed_line (lit "a.txt") Scenario.unprocessable).
Proof.
  cbv zeta.
  assert (Hin : In (Obs (SessionRequest (create_retry_session 5 1 None) POST
                          (lit "https://uploads.github.com/repos/o/r/releases/1/assets?name=a.txt")
                          (upload_headers (lit "tok") (lit "application/octet-stream"))
                          (Some 3))
                       (inr Scenario.unprocessable))
                   (trace_of (run (Scripted.handle Scenario.uploads_refused)
                                (upload_to_release (lit "tok") (lit "o") (lit "r")
                                   (lit "v1") (lit "a.txt")) tt)))
    by (vm_compute; right; right; right; left; reflexivity).
  assert (H200 : status_code Scenario.unprocessable <> 200) by (vm_compute; discriminate).
  assert (H201 : status_code Scenario.unprocessable <> 201) by (vm_compute; discriminate).
  split; [exact Hin |]. split; [exact H200 |]. split; [exact H201 |].
  exact (upload_rejection_is_reported (Scripted.handle Scenario.uploads_refused)
           (lit "tok") (lit "o") (lit "r") (lit "v1") (lit "a.txt") tt
           _ _ _ _ _ Hin H200 H201).
Defined.

Lemma open_failure_is_raised_witness :
  let up := run (Scripted.handle Scenario.unreadable)
                (upload_to_release (lit "tok") (lit "o") (lit "r") (lit "v1") (lit "a.txt")) tt in
  In (Obs (OpenRb (lit "a.txt")) (inl Scenario.is_a_directory)) (trace_of up)
  /\ is_RequestException (Error Scenario.is_a_directory) = false
  /\ outcome_of up = Uncaught (Error Scenario.is_a_directory)
  /\ lit "a.txt" = Path.str (lit "a.txt")
  /\ count is_upload (trace_of up) = 0.
Proof.
  cbv zeta.
  assert (Hin : In (Obs (OpenRb (lit "a.txt")) (inl Scenario.is_a_directory))
                   (trace_of (run (Scripted.handle Scenario.unreadable)
                                (upload_to_release (lit "tok") (lit "o") (lit "r")
                                   (lit "v1") (lit "a.txt")) tt)))
    by (vm_compute; right; right; left; reflexivity).
  split; [exact Hin |]. split; [reflexivity |].
  exact (open_failure_is_raised (Scripted.handle Scenario.unreadable)
           (lit "tok") (lit "o") (lit "r") (lit "v1") (lit "a.txt") tt
           _ _ Hin eq_refl).
Defined.

Lemma upload_names_the_file_witness :
  let up := run (Scripted.handle Scripted.no_id)
                (upload_to_release (lit "tok") (lit "o") (lit "r") (lit "v1") (lit "a.txt")) tt in
  In Scripted.upload_a_txt (trace_of up)
  /\ exists lookup release template encoded_filename f,
       In lookup (trace_of up)
       /\ request_answer GET lookup = Some (inr release)
       /\ option_map (fun v => getitem v (lit "upload_url")) (json_body release)
          = Some (inr (VStr template))
       /\ lit "https://uploads.github.com/repos/o/r/releases/1/assets?name=a.txt"
          = split_head 123 template ++ lit "?name=" ++ encoded_filename
       /\ ~ In 123 (split_head 123 template)
       /\ unquote encoded_filename = Some (Path.name (lit "a.txt"))
       /\ Some 3 = Some f
       /\ In (Obs (OpenRb (Path.str (lit "a.txt"))) (inr f)) (trace_of up).
Proof.
  cbv zeta.
  assert (Hin : In Scripted.upload_a_txt
                   (trace_of (run (Scripted.handle Scripted.no_id)
                                (upload_to_release (lit "tok") (lit "o") (lit "r")
                                   (lit "v1") (lit "a.txt")) tt)))
    by (vm_compute; right; right; right; left; reflexivity).
  split; [exact Hin |].
  exact (upload_names_the_file (Scripted.handle Scripted.no_id)
           (lit "tok") (lit "o") (lit "r") (lit "v1") (lit "a.txt") tt
           _ _ _ _ _ Hin).
Defined.

Lemma success_count_counts_accepted_uploads_witness :
  exists t st,
    run (Scripted.handle Scripted.all_fine)
        (main_loop (lit "tok") (lit "o") (lit "r") (lit "v1") 0
                   [lit "a.txt"; lit "missing.txt"; lit "c.pdf"] (mkState 0 0 [])) tt
    = (t, Returned st, tt)
    /\ uploaded_ids t = [VInt 42; VInt 42]
    /\ success_count st = Z.of_nat (List.length (uploaded_ids t))
    /\ fail_count st = 3 - Z.of_nat (List.length (uploaded_ids t)).
Proof.
  eexists. eexists. split; [vm_compute; reflexivity |].
  split; [reflexivity |].
  refine (success_count_counts_accepted_uploads (Scripted.handle Scripted.all_fine)
            (lit "tok") (lit "o") (lit "r") (lit "v1")
            [lit "a.txt"; lit "missing.txt"; lit "c.pdf"] tt _ _ tt _).
  vm_compute. reflexivity.
Defined.

Lemma nothing_is_printed_after_the_loop_witness :
  let argv := Scripted.argv ["a.txt"; "missing.txt"]%string in
  let r := run (Scripted.handle Scripted.all_fine) (main argv) tt in
  (5 <= List.length argv)%nat
  /\ exists t st,
       run (Scripted.handle Scripted.all_fine) (orchestrator argv) tt = (t, Returned st, tt)
       /\ success_count st = 1
       /\ trace_of r = t
       /\ outcome_of r
          = Uncaught (Error (Exn UnicodeEncodeError (lit "surrogates not allowed")))
       /\ exit_status (outcome_of r) = 1
       /\ ~ In (printed (results_line st)) (trace_of r)
       /\ ~ In (printed mapping_start) (trace_of r)
       /\ ~ In (printed mapping_end) (trace_of r).
Proof.
  cbv zeta. split; [vm_compute; lia |].
  eexists. eexists. split; [vm_compute; reflexivity |].
  split; [reflexivity |].
  refine (nothing_is_printed_after_the_loop (Scripted.handle Scripted.all_fine)
            (Scripted.argv ["a.txt"; "missing.txt"]%string) tt _ _ tt _ _).
  - vm_compute. lia.
  - vm_compute. reflexivity.
Defined.

Lemma failed_lookups_upload_nothing_witness :
  let argv := Scripted.argv ["a.txt"; "c.pdf"]%string in
  let t := trace_of (run (Scripted.handle Scenario.no_such_tag) (main argv) tt) in
  (5 <= List.length argv)%nat
  /\ Forall lookup_not_ok t
  /\ 0 < count is_existing t
  /\ count is_upload t = 0
  /\ collect opened_file t = []
  /\ uploaded_ids t = []
  /\ exit_status (outcome_of (run (Scripted.handle Scenario.no_such_tag) (main argv) tt)) = 1.
Proof.
  cbv zeta.
  assert (Hall : Forall lookup_not_ok
                   (trace_of (run (Scripted.handle Scenario.no_such_tag)
                                (main (Scripted.argv ["a.txt"; "c.pdf"]%string)) tt))).
  { vm_compute. repeat constructor; discriminate. }
  assert (Hlen : (5 <= List.length (Scripted.argv ["a.txt"; "c.pdf"]%string))%nat)
    by (vm_compute; lia).
  destruct (failed_lookups_upload_nothing (Scripted.handle Scenario.no_such_tag)
              (Scripted.argv ["a.txt"; "c.pdf"]%string) tt Hlen Hall)
    as (Hup & Hopen & Hids & Hexit).
  split; [exact Hlen |]. split; [exact Hall |]. split; [reflexivity |].
  split; [exact Hup |]. split; [exact Hopen |]. split; [exact Hids |].
  apply Hexit. reflexivity.
Defined.
